(** * Lead engine: a shallow embedding of [backend/main.py],
      [backend/database.py] and [backend/schemas.py]

    The Python services are embedded as computations in a state-and-exception
    monad over an explicit [World]: the document store, the wall clock, the
    process environment, the outbound message log and the spreadsheet mirror.
    Documents are Python dictionaries and are kept as finite maps from field
    names to dynamically typed values. *)

From Stdlib Require Import ZArith String Ascii List Lia.
From stdpp Require Import base option decidable countable gmap strings list pretty sorting.

Open Scope string_scope.
Open Scope list_scope.

(** ** Python values *)

(** The values that travel through the services: [None], [str] and
    [datetime].  A [datetime] is a point in time, counted in microseconds. *)
Inductive Value :=
| VNone
| VStr (s : string)
| VTime (t : Z).

#[global] Instance Value_eq_dec : EqDecision Value.
Proof. solve_decision. Defined.

#[global] Instance Value_countable : Countable Value.
Proof.
  refine (inj_countable'
    (fun v => match v with
              | VNone => inl tt
              | VStr s => inr (inl s)
              | VTime t => inr (inr t)
              end)
    (fun x => match x with
              | inl _ => VNone
              | inr (inl s) => VStr s
              | inr (inr t) => VTime t
              end) _).
  by intros [].
Defined.

(** Truth value of an object: [None] and the empty string are false. *)
Definition truthy (v : Value) : bool :=
  match v with
  | VNone => false
  | VStr s => negb (bool_decide (s = ""))
  | VTime _ => true
  end.

(** [a or b] for an operand [b] that is already a value. *)
Definition py_or (a b : Value) : Value := if truthy a then a else b.

(** [str(v)], as used by f-strings.  The rendering of a [datetime] is kept
    symbolic: the decimal of its microsecond count. *)
Definition py_str (v : Value) : string :=
  match v with
  | VNone => "None"
  | VStr s => s
  | VTime t => pretty t
  end.

Definition of_opt (o : option string) : Value :=
  match o with
  | Some s => VStr s
  | None => VNone
  end.

(** A dictionary with string keys. *)
Abbreviation Doc := (gmap string Value).

(** [d.get(k)] and [d.get(k, dflt)]. *)
Definition doc_get (d : Doc) (k : string) : Value := default VNone (d !! k).
Definition doc_get_or (d : Doc) (k : string) (dflt : Value) : Value :=
  default dflt (d !! k).

(** ** Strings *)

Definition is_upper (c : ascii) : bool :=
  let n := N_of_ascii c in ((65 <=? n) && (n <=? 90))%N.
Definition is_lower (c : ascii) : bool :=
  let n := N_of_ascii c in ((97 <=? n) && (n <=? 122))%N.
Definition lower_ascii (c : ascii) : ascii :=
  if is_upper c then ascii_of_N (N_of_ascii c + 32) else c.
Definition upper_ascii (c : ascii) : ascii :=
  if is_lower c then ascii_of_N (N_of_ascii c - 32) else c.

(** [s.lower()] on the ASCII letters; every other byte is kept. *)
Fixpoint lower (s : string) : string :=
  match s with
  | EmptyString => EmptyString
  | String c s' => String (lower_ascii c) (lower s')
  end.

(** [s.title()]: a letter that follows a letter is lowered, any other letter
    is raised. *)
Fixpoint title_from (prev_cased : bool) (s : string) : string :=
  match s with
  | EmptyString => EmptyString
  | String c s' =>
      let cased := is_upper c || is_lower c in
      String (if prev_cased then lower_ascii c else upper_ascii c)
             (title_from cased s')
  end.
Definition title (s : string) : string := title_from false s.

(** [k in text] for strings: [k] occurs as a substring. *)
Fixpoint contains (k text : string) : bool :=
  String.prefix k text ||
  match text with
  | EmptyString => false
  | String _ rest => contains k rest
  end.

(** [s[:n]]. *)
Definition str_take (n : nat) (s : string) : string := String.substring 0 n s.

(** ** Exceptions and the world *)

Inductive Exn :=
| HTTPException (status_code : Z) (detail : string)
| ValidationError (model : string)
| TypeError
| AttributeError
| KeyError (key : string).

Inductive Result (A : Type) :=
| Ok (a : A)
| Raise (e : Exn).
Arguments Ok {A} a.
Arguments Raise {A} e.

(** The value of a run that did not raise. *)
Definition value {A} (r : Result A) : option A :=
  match r with
  | Ok a => Some a
  | Raise _ => None
  end.

(** Everything the services read or write outside their arguments. *)
Record World := mkWorld {
  db : gmap string (list Doc);      (* collections of the document store *)
  next_oid : nat;                   (* identifier supply of the store *)
  clock : nat -> Z;                 (* the n-th reading of the wall clock *)
  ticks : nat;                      (* readings taken so far *)
  environ : gmap string string;     (* os.environ *)
  outbox : list (Value * string);   (* messages handed to the WhatsApp sender *)
  gsheet_up : bool;                 (* whether the spreadsheet can be reached *)
  sheet1 : list (list Value);       (* rows of the master sheet *)
  log_sheet : list (list Value)     (* rows of the log sheet *)
}.

Definition set_db (f : gmap string (list Doc) -> gmap string (list Doc)) (w : World) : World :=
  mkWorld (f (db w)) (next_oid w) (clock w) (ticks w) (environ w) (outbox w)
          (gsheet_up w) (sheet1 w) (log_sheet w).
Definition set_next_oid (n : nat) (w : World) : World :=
  mkWorld (db w) n (clock w) (ticks w) (environ w) (outbox w)
          (gsheet_up w) (sheet1 w) (log_sheet w).
Definition set_ticks (n : nat) (w : World) : World :=
  mkWorld (db w) (next_oid w) (clock w) n (environ w) (outbox w)
          (gsheet_up w) (sheet1 w) (log_sheet w).
Definition set_outbox (o : list (Value * string)) (w : World) : World :=
  mkWorld (db w) (next_oid w) (clock w) (ticks w) (environ w) o
          (gsheet_up w) (sheet1 w) (log_sheet w).
Definition set_sheet1 (r : list (list Value)) (w : World) : World :=
  mkWorld (db w) (next_oid w) (clock w) (ticks w) (environ w) (outbox w)
          (gsheet_up w) r (log_sheet w).
Definition set_log_sheet (r : list (list Value)) (w : World) : World :=
  mkWorld (db w) (next_oid w) (clock w) (ticks w) (environ w) (outbox w)
          (gsheet_up w) (sheet1 w) r.

(** A computation: it ends with a value or a raised exception, and in both
    cases leaves the world it has reached (nothing is rolled back). *)
Definition M (A : Type) : Type := World -> Result A * World.

#[global] Instance M_ret : MRet M := fun A a w => (Ok a, w).
#[global] Instance M_bind : MBind M := fun A B f m w =>
  match m w with
  | (Ok a, w') => f a w'
  | (Raise e, w') => (Raise e, w')
  end.

Definition raise {A} (e : Exn) : M A := fun w => (Raise e, w).
Definition gets {A} (f : World -> A) : M A := fun w => (Ok (f w), w).
Definition modify (f : World -> World) : M unit := fun w => (Ok tt, f w).

(** [for x in l: body x]. *)
Fixpoint for_each {A} (l : list A) (body : A -> M unit) : M unit :=
  match l with
  | [] => mret tt
  | x :: l' => body x ≫= fun _ => for_each l' body
  end.

(** [os.getenv(k)] and [os.getenv(k, dflt)]. *)
Definition getenv (k : string) : M Value :=
  gets (fun w => of_opt (environ w !! k)).
Definition getenv_or (k : string) (dflt : string) : M Value :=
  gets (fun w => VStr (default dflt (environ w !! k))).

(** ** The document store ([database.py])

    The database engine is an external collaborator.  A collection is the
    list of its documents in insertion order; a filter is a dictionary of
    required field values.  Identifiers are kept in their string form: the
    store hands out the decimal of a counter, and a lookup by identifier
    compares strings. *)

Definition collection (name : string) (w : World) : list Doc :=
  default [] (db w !! name).

(** A document passes a filter when every field of the filter has the
    required value in the document (a missing field reads as null). *)
Definition Matches (flt : Doc) (d : Doc) : Prop :=
  map_Forall (fun k v => doc_get d k = v) flt.

#[global] Instance Matches_dec flt d : Decision (Matches flt d).
Proof. unfold Matches. apply _. Defined.

(** [insert_one]: the store gives a document without [_id] a fresh one. *)
Definition insert_one (name : string) (data : Doc) : M Value := fun w =>
  let d := match data !! "_id" with
           | Some _ => data
           | None => <["_id" := VStr (pretty (next_oid w))]> data
           end in
  (Ok (doc_get d "_id"),
   set_next_oid (S (next_oid w)) (set_db <[name := collection name w ++ [d]]> w)).

Definition find (name : string) (flt : Doc) : M (list Doc) :=
  gets (fun w => filter (Matches flt) (collection name w)).

Definition find_one (name : string) (flt : Doc) : M (option Doc) :=
  gets (fun w => head (filter (Matches flt) (collection name w))).

(** One document under [{"$set": upd}]. *)
Definition apply_set (flt upd : Doc) (d : Doc) : Doc :=
  if decide (Matches flt d) then upd ∪ d else d.

(** [update_many] rewrites every matching document in place and reports how
    many documents it changed. *)
Definition update_many (name : string) (flt upd : Doc) : M nat := fun w =>
  (Ok (length (filter (fun d => apply_set flt upd d ≠ d) (collection name w))),
   set_db (alter (fmap (apply_set flt upd)) name) w).

Definition now_tz : M Z := fun w =>
  (Ok (clock w (ticks w)), set_ticks (S (ticks w)) w).

(** [d.setdefault(k, v)]. *)
Definition setdefault (k : string) (v : Value) (d : Doc) : Doc :=
  match d !! k with
  | Some _ => d
  | None => <[k := v]> d
  end.

Definition create_document (collection_name : string) (data : Doc) : M string :=
  ts ← now_tz;
  let data := setdefault "updated_at" (VTime ts) (setdefault "created_at" (VTime ts) data) in
  inserted_id ← insert_one collection_name data;
  mret (py_str inserted_id).

Definition update_document (collection_name : string) (filter_dict update_dict : Doc) : M nat :=
  ts ← now_tz;
  let update_dict := <["updated_at" := VTime ts]> update_dict in
  update_many collection_name filter_dict update_dict.

(** [{**doc, "_id": str(doc.get("_id"))}]. *)
Definition str_id (doc : Doc) : Doc :=
  <["_id" := VStr (py_str (doc_get doc "_id"))]> doc.

(** [get_documents] without a sort order; a limit of 0 is no limit. *)
Definition get_documents (collection_name : string) (filter_dict : Doc) (limit : N) : M (list Doc) :=
  cursor ← find collection_name filter_dict;
  let cursor := if decide (limit = 0%N) then cursor else take (N.to_nat limit) cursor in
  mret (str_id <$> cursor).

(** Truth value of an optional dictionary: [None] and [{}] are false. *)
Definition doc_truthy (o : option Doc) : bool :=
  match o with
  | Some d => negb (bool_decide (d = ∅))
  | None => false
  end.

(** [doc["_id"] = str(doc["_id"])]: the key has to be there. *)
Definition set_str_id (doc : Doc) : M Doc :=
  match doc !! "_id" with
  | Some v => mret (<["_id" := VStr (py_str v)]> doc)
  | None => raise (KeyError "_id")
  end.

Definition get_document (collection_name : string) (filter_dict : Doc) : M (option Doc) :=
  doc ← find_one collection_name filter_dict;
  match doc with
  | Some d =>
      if doc_truthy doc
      then d' ← set_str_id d; mret (Some d')
      else mret doc
  | None => mret doc
  end.

(** ** Schemas ([schemas.py]) *)

Definition Status : list string := ["New"; "In progress"; "Won"; "Lost"].

Definition is_Status (v : Value) : bool :=
  match v with
  | VStr s => bool_decide (s ∈ Status)
  | _ => false
  end.

Definition is_Optional_Status (v : Value) : bool :=
  match v with
  | VNone => true
  | _ => is_Status v
  end.

Definition is_str (v : Value) : bool :=
  match v with
  | VStr _ => true
  | _ => false
  end.

Definition is_Optional_str (v : Value) : bool :=
  match v with
  | VTime _ => false
  | _ => true
  end.

(** [LeadLog(...).model_dump()]: the model validates its fields and is then
    dumped with all five keys. *)
Definition LeadLog (lead_id from_status to_status : Value) (timestamp : Z) (note : Value) : M Doc :=
  if is_str lead_id && is_Optional_Status from_status && is_Status to_status
     && is_Optional_str note
  then mret ({[ "lead_id" := lead_id; "from_status" := from_status;
                "to_status" := to_status; "timestamp" := VTime timestamp;
                "note" := note ]} : Doc)
  else raise (ValidationError "LeadLog").

(** A field enters a dump that excludes [None] only when it is set. *)
Definition put_opt (k : string) (o : option string) (d : Doc) : Doc :=
  match o with
  | Some s => <[k := VStr s]> d
  | None => d
  end.

Module WebhookIn.
Record t := mk {
  name : option string;
  phone : option string;
  area : option string;
  job_category : option string;
  description : option string;
  source : option string;
  assigned_sales_whatsapp : option string
}.

(** [payload.model_dump(exclude_none=True)]. *)
Definition model_dump_exclude_none (p : t) : Doc :=
  put_opt "name" (name p)
    (put_opt "phone" (phone p)
      (put_opt "area" (area p)
        (put_opt "job_category" (job_category p)
          (put_opt "description" (description p)
            (put_opt "source" (source p)
              (put_opt "assigned_sales_whatsapp" (assigned_sales_whatsapp p) ∅)))))).
End WebhookIn.

Module ManualLeadIn.
Record t := mk {
  name : string;
  phone : string;
  area : option string;
  job_category : option string;
  description : option string;
  assigned_sales_whatsapp : option string
}.

(** [payload.model_dump(exclude_none=True)]: the two required fields are
    always in the dump. *)
Definition model_dump_exclude_none (p : t) : Doc :=
  <["name" := VStr (name p)]>
    (<["phone" := VStr (phone p)]>
      (put_opt "area" (area p)
        (put_opt "job_category" (job_category p)
          (put_opt "description" (description p)
            (put_opt "assigned_sales_whatsapp" (assigned_sales_whatsapp p) ∅))))).
End ManualLeadIn.

(** The form model of the frontend helper has the fields of the manual one. *)
Module ManualFormIn.
Record t := mk {
  name : string;
  phone : string;
  area : option string;
  job_category : option string;
  description : option string;
  assigned_sales_whatsapp : option string
}.

Definition model_dump_exclude_none (p : t) : Doc :=
  <["name" := VStr (name p)]>
    (<["phone" := VStr (phone p)]>
      (put_opt "area" (area p)
        (put_opt "job_category" (job_category p)
          (put_opt "description" (description p)
            (put_opt "assigned_sales_whatsapp" (assigned_sales_whatsapp p) ∅))))).
End ManualFormIn.

Module WhatsAppMessageIn.
Record t := mk {
  from_number : string;
  to_number : string;
  message : string;
  timestamp : Z
}.
End WhatsAppMessageIn.

Module StatusUpdateIn.
Record t := mk {
  lead_id : string;
  status : string;
  note : option string
}.
End StatusUpdateIn.

(** The fields of the [Lead] model. *)
Definition Lead_fields : list string :=
  ["name"; "phone"; "area"; "job_category"; "description"; "source";
   "timestamp"; "status"; "assigned_sales_whatsapp"; "last_sales_reply_at"].

(** The sources a lead can name. *)
Definition Source : list string := ["whatsapp"; "website"; "facebook"; "manual"].

Definition is_Source (v : Value) : bool :=
  match v with
  | VStr s => bool_decide (s ∈ Source)
  | _ => false
  end.

Definition is_datetime (v : Value) : bool :=
  match v with
  | VTime _ => true
  | _ => false
  end.

Definition is_Optional_datetime (v : Value) : bool :=
  match v with
  | VStr _ => false
  | _ => true
  end.

(** The document validates as a [Lead]: the required fields [name], [phone], [source] and
    [timestamp] are there, and every field holds a value of its declared
    type; a missing [status] is "New", the other missing fields are [None];
    keys the model does not declare are ignored.  The check is the strict
    one (no coercion), so what passes it passes the model. *)
Definition is_Lead (d : Doc) : bool :=
  is_str (doc_get d "name")
  && is_str (doc_get d "phone")
  && is_Optional_str (doc_get d "area")
  && is_Optional_str (doc_get d "job_category")
  && is_Optional_str (doc_get d "description")
  && is_Source (doc_get d "source")
  && is_datetime (doc_get d "timestamp")
  && is_Status (doc_get_or d "status" (VStr "New"))
  && is_Optional_str (doc_get d "assigned_sales_whatsapp")
  && is_Optional_datetime (doc_get d "last_sales_reply_at").

(** ** The services ([main.py]) *)

Definition KEYWORDS : list string :=
  ["paip"; "wiring"; "renovate"; "leaking"; "kontraktor";
   "plumber"; "electrical"; "bumbung"].

(** Read from the environment when the module is loaded; the environment is
    not written afterwards. *)
Definition DEFAULT_ADMIN (w : World) : string :=
  default "+60123456789" (environ w !! "DEFAULT_ADMIN_WHATSAPP").

(** Durations in microseconds. *)
Definition minutes (n : Z) : Z := (n * 60 * 1000000)%Z.
Definition hours (n : Z) : Z := (n * 3600 * 1000000)%Z.

(** The two spreadsheet writers catch every exception of the spreadsheet
    client: an unreachable sheet only loses the row. *)
Definition _append_to_sheet (row : list Value) : M unit :=
  modify (fun w => if gsheet_up w then set_sheet1 (sheet1 w ++ [row]) w else w).

Definition _append_log (row : list Value) : M unit :=
  modify (fun w => if gsheet_up w then set_log_sheet (log_sheet w ++ [row]) w else w).

(** [v.astimezone(APP_TZ)] needs a [datetime]. *)
Definition astimezone (v : Value) : M Z :=
  match v with
  | VTime t => mret t
  | _ => raise AttributeError
  end.

(** The formatted local time of the row is kept as the time itself. *)
Definition _sheet_row_from_lead (lead : Doc) : M (list Value) :=
  ts ← astimezone (doc_get lead "timestamp");
  mret [doc_get lead "name"; doc_get lead "phone"; doc_get lead "area";
        doc_get lead "job_category"; doc_get lead "description";
        doc_get lead "source"; VTime ts; doc_get lead "status";
        doc_get lead "assigned_sales_whatsapp"; doc_get lead "_id"].

(** The sender logs the message and, when a gateway is configured, posts it;
    a failed post is caught.  The world records what was handed over. *)
Definition send_whatsapp_message (to_number : Value) (message : string) : M unit :=
  admin ← gets DEFAULT_ADMIN;
  let to_number := if truthy to_number then to_number else VStr admin in
  modify (fun w => set_outbox (outbox w ++ [(to_number, message)]) w).

Definition _log_status_change (lead_id from_status to_status note : Value) : M unit :=
  ts ← now_tz;
  log ← LeadLog lead_id from_status to_status ts note;
  _ ← create_document "lead_log" log;
  _append_log [lead_id; py_or from_status (VStr ""); to_status;
               doc_get log "timestamp"; py_or note (VStr "")].

Definition _save_and_sheet (lead_data : Doc) : M Doc :=
  lead_id ← create_document "lead" lead_data;
  lead ← get_document "lead" {["_id" := VStr lead_id]};
  _ ← match lead with
      | Some l =>
          if doc_truthy lead
          then row ← _sheet_row_from_lead l; _append_to_sheet row
          else mret tt
      | None => mret tt
      end;
  mret (match lead with
        | Some l => if doc_truthy lead then l else lead_data
        | None => lead_data
        end).

Definition normalize_lead (data : Doc) : M Doc :=
  ts ← (let t := doc_get data "timestamp" in
        if truthy t then mret t else now ← now_tz; mret (VTime now));
  assigned ← (let a := doc_get data "assigned_sales_whatsapp" in
              if truthy a then mret a else getenv "DEFAULT_ASSIGNED_WHATSAPP");
  admin ← gets DEFAULT_ADMIN;
  assigned' ← (if truthy assigned then mret assigned
               else getenv_or "DEFAULT_ADMIN_WHATSAPP" admin);
  mret ({[ "name" := py_or (doc_get data "name") (VStr "Unknown");
           "phone" := py_or (doc_get data "phone") (VStr "");
           "area" := doc_get data "area";
           "job_category" := doc_get data "job_category";
           "description" := doc_get data "description";
           "source" := doc_get_or data "source" (VStr "manual");
           "timestamp" := ts;
           "status" := VStr "New";
           "assigned_sales_whatsapp" := assigned';
           "last_sales_reply_at" := VNone ]} : Doc).

(** What an endpoint answers. *)
Inductive Response :=
| RespLead (lead : Doc)     (* {"ok": True, "lead": lead} *)
| RespIgnored               (* {"ok": True, "ignored": True} *)
| RespOk.                   (* {"ok": True} *)

Definition ingest_webhook (payload : WebhookIn.t) : M Response :=
  data ← normalize_lead
    (<["source" := VStr "website"]> (WebhookIn.model_dump_exclude_none payload));
  lead ← _save_and_sheet data;
  _ ← send_whatsapp_message (doc_get lead "assigned_sales_whatsapp")
        ("New lead from website: " +:+ py_str (doc_get lead "name") +:+ " ("
         +:+ py_str (doc_get lead "phone") +:+ "). Status: New");
  mret (RespLead lead).

Definition ingest_facebook (payload : WebhookIn.t) : M Response :=
  data ← normalize_lead
    (<["source" := VStr "facebook"]> (WebhookIn.model_dump_exclude_none payload));
  lead ← _save_and_sheet data;
  _ ← send_whatsapp_message (doc_get lead "assigned_sales_whatsapp")
        ("New Facebook lead: " +:+ py_str (doc_get lead "name") +:+ " ("
         +:+ py_str (doc_get lead "phone") +:+ "). Status: New");
  mret (RespLead lead).

Definition ingest_manual (payload : ManualLeadIn.t) : M Response :=
  data ← normalize_lead
    (<["source" := VStr "manual"]> (ManualLeadIn.model_dump_exclude_none payload));
  lead ← _save_and_sheet data;
  _ ← send_whatsapp_message (doc_get lead "assigned_sales_whatsapp")
        ("Manual lead added: " +:+ py_str (doc_get lead "name") +:+ " ("
         +:+ py_str (doc_get lead "phone") +:+ "). Status: New");
  mret (RespLead lead).

Definition create_lead (payload : ManualFormIn.t) : M Response :=
  data ← normalize_lead
    (<["source" := VStr "manual"]> (ManualFormIn.model_dump_exclude_none payload));
  lead ← _save_and_sheet data;
  _ ← send_whatsapp_message (doc_get lead "assigned_sales_whatsapp")
        ("New lead: " +:+ py_str (doc_get lead "name") +:+ " ("
         +:+ py_str (doc_get lead "phone") +:+ "). Status: New");
  mret (RespLead lead).

Definition ingest_whatsapp (msg : WhatsAppMessageIn.t) : M Response :=
  let text := lower (WhatsAppMessageIn.message msg) in
  if negb (existsb (fun k => contains k text) KEYWORDS)
  then
    _ ← update_document "lead"
          {["assigned_sales_whatsapp" := VStr (WhatsAppMessageIn.from_number msg)]}
          {["last_sales_reply_at" := VTime (WhatsAppMessageIn.timestamp msg);
            "status" := VStr "In progress"]};
    mret RespIgnored
  else
    data ← normalize_lead
      {[ "name" := VNone;
         "phone" := VStr (WhatsAppMessageIn.from_number msg);
         "area" := VNone;
         "job_category" := VNone;
         "description" := VStr (WhatsAppMessageIn.message msg);
         "source" := VStr "whatsapp";
         "timestamp" := VTime (WhatsAppMessageIn.timestamp msg);
         "assigned_sales_whatsapp" := VStr (WhatsAppMessageIn.to_number msg) ]};
    lead ← _save_and_sheet data;
    _ ← send_whatsapp_message (doc_get lead "assigned_sales_whatsapp")
          ("New WhatsApp lead: " +:+ py_str (doc_get lead "phone") +:+ " → '"
           +:+ str_take 80 (WhatsAppMessageIn.message msg) +:+ "'");
    mret (RespLead lead).

Definition update_status (payload : StatusUpdateIn.t) : M Response :=
  lead ← get_document "lead" {["_id" := VStr (StatusUpdateIn.lead_id payload)]};
  match lead with
  | Some l =>
      if doc_truthy lead then
        let prev := doc_get l "status" in
        _ ← update_document "lead"
              {["_id" := VStr (StatusUpdateIn.lead_id payload)]}
              {["status" := VStr (StatusUpdateIn.status payload)]};
        _ ← _log_status_change (VStr (StatusUpdateIn.lead_id payload)) prev
              (VStr (StatusUpdateIn.status payload))
              (of_opt (StatusUpdateIn.note payload));
        mret RespOk
      else raise (HTTPException 404 "Lead not found")
  | None => raise (HTTPException 404 "Lead not found")
  end.

(** [v <= t] for a [datetime] [t]: only a [datetime] can be compared. *)
Definition time_le (v : Value) (t : Z) : M bool :=
  match v with
  | VTime x => mret (x <=? t)%Z
  | _ => raise TypeError
  end.

Definition reminder_text (lead : Doc) : string :=
  "Reminder: Lead " +:+ py_str (py_or (doc_get lead "name") (doc_get lead "phone"))
  +:+ " has no reply after 15 min.".

Definition follow_up_text (lead : Doc) : string :=
  "Follow-up task: Lead " +:+ py_str (py_or (doc_get lead "name") (doc_get lead "phone"))
  +:+ " still New after 24h.".

Definition follow_up_note : string :=
  "Auto follow-up task created after 24h of no response".

(** Body of the first loop of [follow_up_checks]. *)
Definition remind_15 (fifteen_ago : Z) (lead : Doc) : M unit :=
  old ← time_le (doc_get lead "timestamp") fifteen_ago;
  if old && negb (truthy (doc_get lead "last_sales_reply_at"))
  then
    admin ← gets DEFAULT_ADMIN;
    send_whatsapp_message (py_or (doc_get lead "assigned_sales_whatsapp") (VStr admin))
      (reminder_text lead)
  else mret tt.

(** Body of the second loop of [follow_up_checks]. *)
Definition follow_up_24 (day_ago : Z) (lead : Doc) : M unit :=
  old ← time_le (doc_get lead "timestamp") day_ago;
  if old && bool_decide (doc_get lead "status" = VStr "New")
  then
    _ ← _log_status_change (doc_get lead "_id") (VStr "New") (VStr "New")
          (VStr follow_up_note);
    admin ← gets DEFAULT_ADMIN;
    send_whatsapp_message (py_or (doc_get lead "assigned_sales_whatsapp") (VStr admin))
      (follow_up_text lead)
  else mret tt.

Definition follow_up_checks : M unit :=
  now ← now_tz;
  let fifteen_ago := (now - minutes 15)%Z in
  leads ← get_documents "lead" {["status" := VStr "New"]} 5000%N;
  _ ← for_each leads (remind_15 fifteen_ago);
  let day_ago := (now - hours 24)%Z in
  for_each leads (follow_up_24 day_ago).

(** ** The daily summary *)

(** [for x in l: s = body s x], for a loop that updates local variables. *)
Fixpoint fold_each {A S} (l : list A) (s : S) (body : S -> A -> M S) : M S :=
  match l with
  | [] => mret s
  | x :: l' => body s x ≫= fun s' => fold_each l' s' body
  end.

(** [[x for x in l if p x]], for a condition that can raise. *)
Fixpoint filter_each {A} (l : list A) (p : A -> M bool) : M (list A) :=
  match l with
  | [] => mret []
  | x :: l' =>
      b ← p x;
      rest ← filter_each l' p;
      mret (if (b : bool) then x :: rest else rest)
  end.

(** [d[k] = d.get(k, 0) + 1]. *)
Definition bump `{Countable K} (k : K) (d : gmap K nat) : gmap K nat :=
  <[k := S (default 0%nat (d !! k))]> d.

(** [(v or "Unknown").title()]: only a string has a title case. *)
Definition title_or_unknown (v : Value) : M string :=
  match py_or v (VStr "Unknown") with
  | VStr s => mret (title s)
  | _ => raise AttributeError
  end.

(** The three counters of the loop over the leads. *)
Record Counts := mkCounts {
  by_status : gmap Value nat;
  by_area : gmap string nat;
  by_job : gmap string nat
}.

Definition counts0 : Counts :=
  mkCounts {[ VStr "New" := 0%nat; VStr "In progress" := 0%nat;
              VStr "Won" := 0%nat; VStr "Lost" := 0%nat ]} ∅ ∅.

Definition count_lead (c : Counts) (l : Doc) : M Counts :=
  let by_status := bump (doc_get_or l "status" (VStr "New")) (by_status c) in
  area ← title_or_unknown (doc_get l "area");
  let by_area := bump area (by_area c) in
  job ← title_or_unknown (doc_get l "job_category");
  let by_job := bump job (by_job c) in
  mret (mkCounts by_status by_area by_job).

(** Order of the pairs [(key, count)] under [sorted]: by key, then by count. *)
Definition item_le (a b : string * nat) : Prop :=
  match String.compare a.1 b.1 with
  | Lt => True
  | Eq => (a.2 <= b.2)%nat
  | Gt => False
  end.

#[global] Instance item_le_dec : RelDecision item_le.
Proof. intros a b. unfold item_le. destruct (String.compare a.1 b.1); apply _. Defined.

(** [sorted(d.items())]. *)
Definition sorted_items (d : gmap string nat) : list (string * nat) :=
  merge_sort item_le (map_to_list d).

Definition nl : string := String (ascii_of_nat 10) "".

(** [sep.join(l)]. *)
Fixpoint join (sep : string) (l : list string) : string :=
  match l with
  | [] => ""
  | x :: l' =>
      match l' with
      | [] => x
      | _ => x +:+ sep +:+ join sep l'
      end
  end.

(** [f"{k}: {v}"]. *)
Definition fmt_item (kv : string * nat) : string := kv.1 +:+ ": " +:+ pretty kv.2.

Definition status_line (by_status : gmap Value nat) : string :=
  "Status → New: " +:+ pretty (by_status !!! VStr "New")
  +:+ ", In progress: " +:+ pretty (by_status !!! VStr "In progress")
  +:+ ", Won: " +:+ pretty (by_status !!! VStr "Won")
  +:+ ", Lost: " +:+ pretty (by_status !!! VStr "Lost").

Definition summary_lines (total : nat) (c : Counts) (conversion overdue : nat) : list string :=
  [ "PK Daily Lead Summary";
    "Total leads: " +:+ pretty total;
    status_line (by_status c);
    "By Area: " +:+ join ", " (fmt_item <$> sorted_items (by_area c));
    "By Job: " +:+ join ", " (fmt_item <$> sorted_items (by_job c));
    "Conversion New→In progress: " +:+ pretty conversion;
    "Overdue follow-ups (24h): " +:+ pretty overdue ].

Definition is_overdue (day_ago : Z) (l : Doc) : M bool :=
  if bool_decide (doc_get l "status" = VStr "New")
  then time_le (doc_get l "timestamp") day_ago
  else mret false.

Definition daily_summary_job : M unit :=
  leads ← get_documents "lead" ∅ 10000%N;
  let total := length leads in
  c ← fold_each leads counts0 count_lead;
  logs ← get_documents "lead_log"
           {["from_status" := VStr "New"; "to_status" := VStr "In progress"]} 100000%N;
  let conversion := length logs in
  now ← now_tz;
  let day_ago := (now - hours 24)%Z in
  overdue ← filter_each leads (is_overdue day_ago);
  let message := join nl (summary_lines total c conversion (length overdue)) in
  admin ← gets DEFAULT_ADMIN;
  send_whatsapp_message (VStr admin) message.

(** * Concrete worlds used by the examples *)

Definition clock0 : nat -> Z := fun n => (Z.of_nat n + 1000000000000)%Z.

Definition world0 : World :=
  mkWorld ∅ 0 clock0 0 ∅ [] true [] [].

(** * Vocabulary of the statements *)

(** The value a record supplies for a field: present and not null. *)
Definition supplied (data : Doc) (k : string) : option Value :=
  match data !! k with
  | Some VNone => None
  | o => o
  end.

(** The normalizer contract read literally: a supplied name is always kept. *)
Definition normalizer_keeps_supplied : Prop :=
  ∀ (data : Doc) (w : World), ∃ out w',
    normalize_lead data w = (Ok out, w')
    ∧ out !! "name" = Some (default (VStr "Unknown") (supplied data "name"))
    ∧ out !! "phone" = Some (default (VStr "") (supplied data "phone"))
    ∧ out !! "status" = Some (VStr "New")
    ∧ out !! "last_sales_reply_at" = Some VNone.

(** What the normalizer resolves for the time stamp and for the handler, and
    the payload it builds. *)
Definition resolved_timestamp (data : Doc) (w : World) : Value :=
  if truthy (doc_get data "timestamp") then doc_get data "timestamp"
  else VTime (clock w (ticks w)).

Definition resolved_handler (data : Doc) (w : World) : Value :=
  if truthy (doc_get data "assigned_sales_whatsapp")
  then doc_get data "assigned_sales_whatsapp"
  else if truthy (of_opt (environ w !! "DEFAULT_ASSIGNED_WHATSAPP"))
       then of_opt (environ w !! "DEFAULT_ASSIGNED_WHATSAPP")
       else VStr (default (DEFAULT_ADMIN w) (environ w !! "DEFAULT_ADMIN_WHATSAPP")).

Definition normalized (data : Doc) (w : World) : Doc :=
  {[ "name" := py_or (doc_get data "name") (VStr "Unknown");
     "phone" := py_or (doc_get data "phone") (VStr "");
     "area" := doc_get data "area";
     "job_category" := doc_get data "job_category";
     "description" := doc_get data "description";
     "source" := doc_get_or data "source" (VStr "manual");
     "timestamp" := resolved_timestamp data w;
     "status" := VStr "New";
     "assigned_sales_whatsapp" := resolved_handler data w;
     "last_sales_reply_at" := VNone ]}.

(** What a computation may not change: the clock, the environment and the
    reachability of the spreadsheet; the clock is only read further. *)
Record same_env (w w' : World) : Prop := mk_same_env {
  se_clock : clock w' = clock w;
  se_environ : environ w' = environ w;
  se_gsheet : gsheet_up w' = gsheet_up w;
  se_ticks : (ticks w <= ticks w')%nat
}.

(** The time stamp of a document, when it is a [datetime]. *)
Definition time_of (d : Doc) : option Z :=
  match doc_get d "timestamp" with
  | VTime t => Some t
  | _ => None
  end.

(** A stored log entry for the given lead and transition. *)
Definition is_log_entry (lead_id from_status to_status note : Value) (e : Doc) : Prop :=
  e !! "lead_id" = Some lead_id
  ∧ e !! "from_status" = Some from_status
  ∧ e !! "to_status" = Some to_status
  ∧ e !! "note" = Some note
  ∧ is_Some (time_of e).

(** The filter of a lookup by identifier. *)
Definition by_id (lead_id : string) : Doc := {["_id" := VStr lead_id]}.

(** The record a lead identifier resolves to: the first one that carries it. *)
Definition resolve (lead_id : string) (w : World) : option Doc :=
  head (filter (Matches (by_id lead_id)) (collection "lead" w)).



(** The next identifier of the store is carried by no lead yet. *)
Definition fresh_lead_id (w : World) : Prop := resolve (pretty (next_oid w)) w = None.





(** A store with one lead, as the website endpoint leaves it. *)
Definition lead_ali : Doc :=
  {[ "_id" := VStr "0"; "name" := VStr "Ali"; "phone" := VStr "+60111";
     "area" := VNone; "job_category" := VNone; "description" := VNone;
     "source" := VStr "website"; "timestamp" := VTime 1000000000000;
     "status" := VStr "New"; "assigned_sales_whatsapp" := VStr "+60123456789";
     "last_sales_reply_at" := VNone;
     "created_at" := VTime 1000000000001; "updated_at" := VTime 1000000000001 ]}.

Definition world1 : World :=
  mkWorld {["lead" := [lead_ali]]} 1 clock0 2 ∅ [] true [] [].


(** The lead a keyword message is normalized from. *)
Definition whatsapp_data (msg : WhatsAppMessageIn.t) : Doc :=
  {[ "name" := VNone;
     "phone" := VStr (WhatsAppMessageIn.from_number msg);
     "area" := VNone;
     "job_category" := VNone;
     "description" := VStr (WhatsAppMessageIn.message msg);
     "source" := VStr "whatsapp";
     "timestamp" := VTime (WhatsAppMessageIn.timestamp msg);
     "assigned_sales_whatsapp" := VStr (WhatsAppMessageIn.to_number msg) ]}.



(** Two more leads, and a store that holds the three. *)
Definition lead_siti : Doc :=
  {[ "_id" := VStr "1"; "name" := VStr "Siti"; "phone" := VStr "+60122";
     "area" := VStr "klang"; "job_category" := VStr "wiring"; "description" := VNone;
     "source" := VStr "facebook"; "timestamp" := VTime 1000000000100;
     "status" := VStr "In progress"; "assigned_sales_whatsapp" := VStr "+60177";
     "last_sales_reply_at" := VNone;
     "created_at" := VTime 1000000000101; "updated_at" := VTime 1000000000101 ]}.

Definition lead_chong : Doc :=
  {[ "_id" := VStr "2"; "name" := VStr "Chong"; "phone" := VStr "+60133";
     "area" := VStr "ipoh"; "job_category" := VNone; "description" := VNone;
     "source" := VStr "manual"; "timestamp" := VTime 1000000000200;
     "status" := VStr "Won"; "assigned_sales_whatsapp" := VStr "+60123456789";
     "last_sales_reply_at" := VNone;
     "created_at" := VTime 1000000000201; "updated_at" := VTime 1000000000201 ]}.

Definition world3 : World :=
  mkWorld {["lead" := [lead_ali; lead_siti; lead_chong]]} 3 clock0 6 ∅ [] true [] [].















(** The log entry of the 24-hour follow-up of a lead. *)
Definition logged_follow_up (d e : Doc) : Prop :=
  is_log_entry (doc_get d "_id") (VStr "New") (VStr "New") (VStr follow_up_note) e.





#[global] Instance logged_follow_up_dec (d e : Doc) : Decision (logged_follow_up d e).
Proof. unfold logged_follow_up, is_log_entry. apply _. Defined.




(** The result of a computation that only computes: run anywhere. *)
Definition eval {A} (m : M A) : Result A := (m world0).1.

(** A computation that neither reads nor writes the world. *)
Definition pure {A} (m : M A) : Prop := ∀ w, m w = (eval m, w).

(** The leads and the conversion entries the daily summary reads. *)
Definition summary_leads (w : World) : list Doc :=
  str_id <$> take (N.to_nat 10000) (collection "lead" w).
Definition summary_logs (w : World) : list Doc :=
  str_id <$> take (N.to_nat 100000)
    (filter (Matches {["from_status" := VStr "New"; "to_status" := VStr "In progress"]})
       (collection "lead_log" w)).

(** The text of the daily summary over the given leads and conversion
    entries, for a run at time [now]. *)
Definition report (leads logs : list Doc) (now : Z) : Result string :=
  match eval (fold_each leads counts0 count_lead) with
  | Ok c =>
      match eval (filter_each leads (is_overdue (now - hours 24))) with
      | Ok overdue =>
          Ok (join nl (summary_lines (length leads) c (length logs) (length overdue)))
      | Raise e => Raise e
      end
  | Raise e => Raise e
  end.





(** A lead whose area and job category are strings or absent. *)
Definition titleable (l : Doc) : Prop :=
  is_Optional_str (doc_get l "area") = true
  ∧ is_Optional_str (doc_get l "job_category") = true.

(** The bucket of an area or job category. *)
Definition title_key (v : Value) : string :=
  match py_or v (VStr "Unknown") with
  | VStr s => title s
  | _ => ""
  end.

(** The counters after one more lead. *)
Definition counted (c : Counts) (l : Doc) : Counts :=
  mkCounts (bump (doc_get_or l "status" (VStr "New")) (by_status c))
           (bump (title_key (doc_get l "area")) (by_area c))
           (bump (title_key (doc_get l "job_category")) (by_job c)).

(** * Vocabulary of the further properties *)





(** The wording of the four form endpoints. *)
Definition new_lead_text (intro : string) (lead : Doc) : string :=
  intro +:+ py_str (doc_get lead "name") +:+ " ("
  +:+ py_str (doc_get lead "phone") +:+ "). Status: New".

(** A dump of a request model holds strings only. *)
Definition all_str (d : Doc) : Prop := ∀ k v, d !! k = Some v → is_str v = true.

(** The form of the frontend helper with the fields of a manual payload. *)
Definition form_of (p : ManualLeadIn.t) : ManualFormIn.t :=
  ManualFormIn.mk (ManualLeadIn.name p) (ManualLeadIn.phone p) (ManualLeadIn.area p)
    (ManualLeadIn.job_category p) (ManualLeadIn.description p)
    (ManualLeadIn.assigned_sales_whatsapp p).

(** The sum of the counts of a counter. *)
Definition total_count `{Countable K} (d : gmap K nat) : nat :=
  map_fold (fun _ n acc => (n + acc)%nat) 0%nat d.

(** The four counts of the status line. *)
Definition printed_statuses (d : gmap Value nat) : nat :=
  (d !!! VStr "New" + d !!! VStr "In progress" + d !!! VStr "Won" + d !!! VStr "Lost")%nat.

(** A lead whose status is one of the four of the status line. *)
Definition known_status (l : Doc) : Prop :=
  is_Status (doc_get_or l "status" (VStr "New")) = true.

(** A relation between the world before and the world after that a
    computation respects on every run, returning or raising. *)
Definition keeps (R : relation World) {A} (m : M A) : Prop := ∀ w, R w (m w).2.

(** A property of the world that, once it holds, still holds afterwards. *)
Definition preserved (P : World → Prop) : relation World := fun w w' => P w → P w'.

(** The fields of a lead that the services set after it is stored. *)
Definition mutable_fields : list string :=
  ["status"; "last_sales_reply_at"; "updated_at"].

Definition patch_of_mutable (upd : Doc) : Prop :=
  ∀ k, k ∉ mutable_fields → upd !! k = None.

(** The later world only adds to the earlier one: no document, message or
    spreadsheet row is gone, the log is a prefix of the later log, and a lead
    differs at most in its mutable fields. *)
Record extends (w w' : World) : Prop := mk_extends {
  ex_env : same_env w w';
  ex_oid : (next_oid w <= next_oid w')%nat;
  ex_docs : ∀ name, (length (collection name w) <= length (collection name w'))%nat;
  ex_leads : ∀ (i : nat) (d : Doc), collection "lead" w !! i = Some d →
      ∃ d', collection "lead" w' !! i = Some d'
            ∧ ∀ k, k ∉ mutable_fields → d' !! k = d !! k;
  ex_log : collection "lead_log" w `prefix_of` collection "lead_log" w';
  ex_outbox : outbox w `prefix_of` outbox w';
  ex_sheet1 : sheet1 w `prefix_of` sheet1 w';
  ex_log_sheet : log_sheet w `prefix_of` log_sheet w'
}.

(** Every stored document carries an identifier the store has issued. *)
Definition ids_issued (w : World) : Prop :=
  ∀ (name : string) (d : Doc), d ∈ collection name w →
    ∃ n, (n < next_oid w)%nat ∧ d !! "_id" = Some (VStr (pretty n)).

(** The store and the spreadsheet are as they were. *)
Definition store_untouched (w w' : World) : Prop :=
  db w' = db w ∧ next_oid w' = next_oid w
  ∧ sheet1 w' = sheet1 w ∧ log_sheet w' = log_sheet w.

(** The leads and their sheet are as they were. *)
Definition leads_untouched (w w' : World) : Prop :=
  collection "lead" w' = collection "lead" w ∧ sheet1 w' = sheet1 w.

(** The world without its spreadsheet. *)
Definition off_sheet (w : World) : World :=
  mkWorld (db w) (next_oid w) (clock w) (ticks w) (environ w) (outbox w) false [] [].

(** A computation whose result, store, clock and outbox do not depend on
    the spreadsheet: neither on whether it can be reached nor on its rows. *)
Definition sheet_blind {A} (m : M A) : Prop :=
  ∀ w1 w2, off_sheet w1 = off_sheet w2 →
    (m w1).1 = (m w2).1 ∧ off_sheet (m w1).2 = off_sheet (m w2).2.

(** What the two jobs need of a lead: a [datetime] as time stamp and area
    and job category that are strings or absent. *)
Definition typed_lead (d : Doc) : Prop := is_Some (time_of d) ∧ titleable d.

Definition leads_typed (w : World) : Prop := Forall typed_lead (collection "lead" w).



(** * Properties of the store *)

Lemma Matches_singleton (k : string) (v : Value) (d : Doc) :
  Matches {[k := v]} d ↔ doc_get d k = v.
Proof. unfold Matches. by rewrite map_Forall_singleton. Qed.

Lemma Matches_nonempty (k : string) (s : string) (d : Doc) :
  Matches {[k := VStr s]} d → d ≠ ∅.
Proof.
  rewrite Matches_singleton. intros H ->.
  unfold doc_get in H. by rewrite lookup_empty in H.
Qed.

Lemma collection_alter (name name' : string) (g : Doc → Doc) (w : World) :
  collection name (set_db (alter (fmap g) name') w)
  = if decide (name' = name) then g <$> collection name w else collection name w.
Proof.
  unfold collection, set_db; simpl. rewrite lookup_alter.
  case_decide; [subst|done]. by destruct (db w !! name).
Qed.

Lemma collection_insert (name name' : string) (l : list Doc) (w : World) :
  collection name (set_db <[name' := l]> w)
  = if decide (name' = name) then l else collection name w.
Proof.
  unfold collection, set_db; simpl. rewrite lookup_insert.
  by case_decide.
Qed.



Lemma head_filter_None {A} (P : A → Prop) `{!∀ x, Decision (P x)} (l : list A) :
  head (filter P l) = None ↔ ∀ x, x ∈ l → ¬ P x.
Proof.
  rewrite head_None. split.
  - intros Hnil x Hx HP. eapply filter_nil_not_elem_of; eauto.
  - intros Hall. induction l as [|x l IH]; [done|].
    rewrite filter_cons_False; [|apply Hall; left].
    apply IH. intros y Hy. apply Hall. by right.
Qed.

(** * The normalizer *)

Ltac run := unfold mbind, M_bind, mret, M_ret, gets, modify, raise; simpl.

(** Settles a decidable closed statement by evaluation. *)
Ltac by_compute :=
  match goal with
  | |- ?P => apply (bool_decide_unpack P); vm_compute; exact I
  end.

Lemma normalize_lead_run (data : Doc) (w : World) :
  normalize_lead data w
  = (Ok (normalized data w),
     if truthy (doc_get data "timestamp") then w else set_ticks (S (ticks w)) w).
Proof.
  unfold normalize_lead, normalized, resolved_timestamp, resolved_handler,
    now_tz, getenv, getenv_or. run.
  destruct (truthy (doc_get data "timestamp")) eqn:Ht; simpl;
    destruct (truthy (doc_get data "assigned_sales_whatsapp")) eqn:Ha; simpl;
    rewrite ?Ha; simpl; try reflexivity.
  all: destruct (truthy (of_opt _)) eqn:He; simpl; rewrite ?He; reflexivity.
Qed.

(** C8, as stated, fails: a record that supplies the empty string as its name
    is normalized to the name "Unknown", not to the supplied value. *)
Lemma normalize_lead_empty_name : ¬ normalizer_keeps_supplied.
Proof.
  intros Hc.
  destruct (Hc {["name" := VStr ""]} world0) as (out & w' & Hrun & Hname & _).
  assert (Hn : (o ← value (normalize_lead {["name" := VStr ""]} world0).1; o !! "name")
               = Some (VStr "Unknown")) by (vm_compute; reflexivity).
  rewrite Hrun in Hn. simpl in Hn. rewrite Hn in Hname.
  vm_compute in Hname. discriminate.
Qed.

(** C8 (amended): the normalizer never fails; the name is the supplied value
    when that value is true (a non-empty string) and "Unknown" when it is
    missing, null or empty; the phone is the supplied value or the empty
    string and never null; the status is "New" and the last reply is absent. *)
Theorem normalize_lead_total (data : Doc) (w : World) :
  ∃ out w',
    normalize_lead data w = (Ok out, w')
    ∧ out !! "name" = Some (match supplied data "name" with
                            | Some v => if truthy v then v else VStr "Unknown"
                            | None => VStr "Unknown"
                            end)
    ∧ out !! "phone" = Some (default (VStr "") (supplied data "phone"))
    ∧ out !! "phone" ≠ Some VNone
    ∧ out !! "status" = Some (VStr "New")
    ∧ out !! "last_sales_reply_at" = Some VNone.
Proof.
  rewrite normalize_lead_run.
  eexists _, _. split; [reflexivity|].
  assert (Hname : py_or (doc_get data "name") (VStr "Unknown")
                  = match supplied data "name" with
                    | Some v => if truthy v then v else VStr "Unknown"
                    | None => VStr "Unknown"
                    end).
  { unfold py_or, doc_get, supplied.
    destruct (data !! "name") as [[| s |t]|]; simpl; done. }
  assert (Hphone : py_or (doc_get data "phone") (VStr "")
                   = default (VStr "") (supplied data "phone")).
  { unfold py_or, doc_get, supplied.
    destruct (data !! "phone") as [[| s |t]|]; simpl; try done.
    case_bool_decide; simpl; congruence. }
  rewrite <- Hname, <- Hphone.
  repeat split; try reflexivity.
  change (Some (py_or (doc_get data "phone") (VStr "")) ≠ Some VNone).
  unfold py_or. destruct (doc_get data "phone"); simpl; try done.
  case_bool_decide; done.
Qed.

Lemma bind_ok {A B} (m : M A) (f : A → M B) (w w' : World) (a : A) :
  m w = (Ok a, w') → (m ≫= f) w = f a w'.
Proof. intros H. unfold mbind, M_bind. by rewrite H. Qed.


(** * The status update *)




Lemma get_document_by_id (name : string) (lead_id : string) (w : World) :
  get_document name {["_id" := VStr lead_id]} w
  = (Ok (str_id <$> head (filter (Matches {["_id" := VStr lead_id]}) (collection name w))),
     w).
Proof.
  unfold get_document, find_one. run.
  destruct (head _) as [d|] eqn:Hd; [|done].
  apply head_Some_elem_of, list_elem_of_filter in Hd as [Hm _].
  assert (Hb : ∀ dec, @bool_decide (d = ∅) dec = false)
    by (intros; by eapply bool_decide_false, Matches_nonempty).
  unfold doc_truthy. rewrite Hb. simpl.
  apply Matches_singleton in Hm. unfold set_str_id, str_id. rewrite Hm.
  unfold doc_get in Hm. destruct (d !! "_id") as [v|]; [|done].
  simpl in Hm. by subst v.
Qed.


Lemma resolve_None (lead_id : string) (w : World) :
  resolve lead_id w = None ↔
  ∀ d, d ∈ collection "lead" w → doc_get d "_id" ≠ VStr lead_id.
Proof.
  unfold resolve, by_id. rewrite head_filter_None.
  split; intros Hall d Hd; specialize (Hall d Hd).
  - by rewrite Matches_singleton in Hall.
  - by rewrite Matches_singleton.
Qed.

(** C2: a status update for an identifier that no lead record carries raises
    the 404 error and leaves the whole world, and so the store with its leads
    and its log, as it was. *)
Theorem update_status_not_found (payload : StatusUpdateIn.t) (w : World) :
  (∀ d, d ∈ collection "lead" w →
        doc_get d "_id" ≠ VStr (StatusUpdateIn.lead_id payload)) →
  update_status payload w = (Raise (HTTPException 404 "Lead not found"), w).
Proof.
  intros Hnone. apply resolve_None in Hnone. unfold resolve, by_id in Hnone.
  unfold update_status.
  rewrite (bind_ok _ _ _ _ _ (get_document_by_id _ _ _)).
  by rewrite Hnone.
Qed.

Lemma update_status_not_found_witness :
  update_status (StatusUpdateIn.mk "7" "Won" None) world1
  = (Raise (HTTPException 404 "Lead not found"), world1).
Proof.
  apply (update_status_not_found (StatusUpdateIn.mk "7" "Won" None) world1).
  apply resolve_None. reflexivity.
Defined.












(** * Ingestion *)

Lemma setdefault_lookup_ne k k' v (d : Doc) : k ≠ k' → setdefault k v d !! k' = d !! k'.
Proof. intros Hk. unfold setdefault. destruct (d !! k); [done|]. by rewrite lookup_insert_ne. Qed.







Lemma same_env_trans w1 w2 w3 : same_env w1 w2 → same_env w2 w3 → same_env w1 w3.
Proof.
  intros [] []. split; try congruence. lia.
Qed.


Lemma put_opt_lookup_ne (k k' : string) (o : option string) (d : Doc) :
  k ≠ k' → put_opt k o d !! k' = d !! k'.
Proof. intros Hk. destruct o; simpl; [by rewrite lookup_insert_ne|done]. Qed.

Lemma dump_timestamp (p : WebhookIn.t) (tag : string) :
  doc_get (<["source" := VStr tag]> (WebhookIn.model_dump_exclude_none p)) "timestamp" = VNone.
Proof.
  unfold doc_get. rewrite lookup_insert_ne by done.
  unfold WebhookIn.model_dump_exclude_none.
  rewrite !put_opt_lookup_ne by done. by rewrite lookup_empty.
Qed.


Lemma send_whatsapp_message_run (to_number : Value) (message : string) (w : World) :
  send_whatsapp_message to_number message w
  = (Ok tt, set_outbox (outbox w ++ [(if truthy to_number then to_number
                                      else VStr (DEFAULT_ADMIN w), message)]) w).
Proof. reflexivity. Qed.



(** * The messaging channel *)










(** * The follow-up scan *)






Lemma same_env_refl (w : World) : same_env w w.
Proof. by split. Qed.





Lemma str_id_is_str (d : Doc) : is_str (doc_get (str_id d) "_id") = true.
Proof. unfold str_id, doc_get. by rewrite lookup_insert_eq. Qed.



























(** * The daily summary *)

Lemma pure_ret {A} (a : A) : pure (mret a : M A).
Proof. by intros w. Qed.

Lemma pure_raise {A} (e : Exn) : pure (raise e : M A).
Proof. by intros w. Qed.

Lemma pure_bind {A B} (m : M A) (f : A → M B) :
  pure m → (∀ a, pure (f a)) → pure (m ≫= f).
Proof.
  intros Hm Hf w. unfold eval, mbind, M_bind.
  rewrite (Hm w), (Hm world0). destruct (eval m) as [a|e]; [|done].
  rewrite (Hf a w), (Hf a world0). done.
Qed.

Lemma pure_fold_each {A S} (l : list A) (s : S) (body : S → A → M S) :
  (∀ s x, pure (body s x)) → pure (fold_each l s body).
Proof.
  intros Hb. revert s. induction l as [|x l IH]; intros s; simpl.
  - apply pure_ret.
  - apply pure_bind; [apply Hb|apply IH].
Qed.

Lemma pure_filter_each {A} (l : list A) (p : A → M bool) :
  (∀ x, pure (p x)) → pure (filter_each l p).
Proof.
  intros Hp. induction l as [|x l IH]; simpl.
  - apply pure_ret.
  - apply pure_bind; [apply Hp|]. intros b.
    apply pure_bind; [apply IH|]. intros rest. apply pure_ret.
Qed.

Lemma pure_title_or_unknown (v : Value) : pure (title_or_unknown v).
Proof.
  unfold title_or_unknown. destruct (py_or v (VStr "Unknown")); by intros w.
Qed.

Lemma pure_count_lead (c : Counts) (l : Doc) : pure (count_lead c l).
Proof.
  unfold count_lead. apply pure_bind; [apply pure_title_or_unknown|]. intros a.
  apply pure_bind; [apply pure_title_or_unknown|]. intros j. apply pure_ret.
Qed.

Lemma pure_is_overdue (c : Z) (l : Doc) : pure (is_overdue c l).
Proof.
  unfold is_overdue, time_le. destruct (bool_decide _); [|apply pure_ret].
  destruct (doc_get l "timestamp"); by intros w.
Qed.

Lemma Matches_empty (d : Doc) : Matches ∅ d.
Proof. apply map_Forall_empty. Qed.

Lemma filter_Matches_empty (l : list Doc) : filter (Matches ∅) l = l.
Proof.
  induction l as [|d l IH]; [done|].
  rewrite filter_cons_True by apply Matches_empty. by rewrite IH.
Qed.

Lemma get_documents_all (w : World) :
  get_documents "lead" ∅ 10000 w = (Ok (summary_leads w), w).
Proof.
  unfold get_documents, find. run. unfold summary_leads.
  by rewrite filter_Matches_empty.
Qed.

Lemma get_documents_conversions (w : World) :
  get_documents "lead_log"
    {["from_status" := VStr "New"; "to_status" := VStr "In progress"]} 100000 w
  = (Ok (summary_logs w), w).
Proof. reflexivity. Qed.

(** The job as a function of what it reads. *)
Lemma daily_summary_run (w : World) :
  ∃ w',
    daily_summary_job w
    = (match report (summary_leads w) (summary_logs w) (clock w (ticks w)) with
       | Ok _ => Ok tt
       | Raise e => Raise e
       end, w')
    ∧ outbox w'
      = outbox w ++ match report (summary_leads w) (summary_logs w) (clock w (ticks w)) with
                    | Ok text => [(VStr (DEFAULT_ADMIN w), text)]
                    | Raise _ => []
                    end.
Proof.
  unfold daily_summary_job, report.
  rewrite (bind_ok _ _ _ _ _ (get_documents_all w)).
  unfold mbind at 1, M_bind at 1.
  rewrite (pure_fold_each (summary_leads w) counts0 count_lead pure_count_lead w).
  destruct (eval (fold_each _ _ _)) as [c|e].
  2:{ exists w. by rewrite app_nil_r. }
  rewrite (bind_ok _ _ _ _ _ (get_documents_conversions w)).
  unfold now_tz at 1. unfold mbind at 1, M_bind at 1. cbv beta iota.
  unfold mbind at 1, M_bind at 1.
  rewrite (pure_filter_each (summary_leads w) _ (pure_is_overdue _)
             (set_ticks (S (ticks w)) w)).
  destruct (eval (filter_each _ _)) as [overdue|e].
  2:{ eexists. split; [reflexivity|]. simpl. by rewrite app_nil_r. }
  unfold send_whatsapp_message. run.
  eexists. split; [reflexivity|]. simpl.
  by destruct (negb _).
Qed.



Lemma string_compare_refl (s : string) : String.compare s s = Eq.
Proof.
  induction s as [|c s IH]; [done|]. simpl.
  unfold Ascii.compare. by rewrite N.compare_refl.
Qed.

Lemma string_compare_lt_trans (s1 s2 s3 : string) :
  String.compare s1 s2 = Lt → String.compare s2 s3 = Lt → String.compare s1 s3 = Lt.
Proof.
  revert s2 s3. induction s1 as [|c1 s1 IH]; intros [|c2 s2] [|c3 s3]; simpl; try done.
  unfold Ascii.compare.
  destruct (N.compare_spec (N_of_ascii c1) (N_of_ascii c2)) as [H12|H12|H12]; try done;
    destruct (N.compare_spec (N_of_ascii c2) (N_of_ascii c3)) as [H23|H23|H23]; try done;
    intros Ha Hb.
  - rewrite H12, H23, N.compare_refl. by eapply IH.
  - rewrite H12. by apply N.compare_lt_iff in H23 as ->.
  - rewrite <- H23. by apply N.compare_lt_iff in H12 as ->.
  - assert (H13 : (N_of_ascii c1 < N_of_ascii c3)%N) by lia.
    by apply N.compare_lt_iff in H13 as ->.
Qed.

#[global] Instance item_le_trans : Transitive item_le.
Proof.
  intros [k1 v1] [k2 v2] [k3 v3]. unfold item_le. simpl.
  destruct (String.compare k1 k2) eqn:H12; try done;
    destruct (String.compare k2 k3) eqn:H23; try done; intros Ha Hb.
  - apply String.compare_eq_iff in H12, H23. subst.
    rewrite string_compare_refl. lia.
  - apply String.compare_eq_iff in H12. subst. by rewrite H23.
  - apply String.compare_eq_iff in H23. subst. by rewrite H12.
  - by rewrite (string_compare_lt_trans _ _ _ H12 H23).
Qed.

#[global] Instance item_le_total : Total item_le.
Proof.
  intros [k1 v1] [k2 v2]. unfold item_le. simpl.
  rewrite (String.compare_antisym k2 k1).
  destruct (String.compare k1 k2); simpl; auto. lia.
Qed.



Lemma sorted_items_complete (d : gmap string nat) (k : string) (n : nat) :
  (k, n) ∈ sorted_items d ↔ d !! k = Some n.
Proof.
  unfold sorted_items. rewrite merge_sort_Permutation. apply elem_of_map_to_list.
Qed.

Lemma eval_bind {A B} (m : M A) (f : A → M B) :
  pure m →
  eval (m ≫= f) = match eval m with
                  | Ok a => eval (f a)
                  | Raise e => Raise e
                  end.
Proof.
  intros Hm. unfold eval at 1. unfold mbind, M_bind. rewrite (Hm world0).
  by destruct (eval m).
Qed.

Lemma title_or_unknown_eval (v : Value) :
  is_Optional_str v = true → eval (title_or_unknown v) = Ok (title_key v).
Proof.
  unfold title_or_unknown, title_key, py_or.
  destruct v as [|s|t]; try done. simpl. by destruct (negb _).
Qed.

Lemma count_lead_eval (c : Counts) (l : Doc) :
  titleable l → eval (count_lead c l) = Ok (counted c l).
Proof.
  intros [Ha Hj]. unfold count_lead.
  rewrite eval_bind by apply pure_title_or_unknown.
  rewrite (title_or_unknown_eval _ Ha).
  rewrite eval_bind by apply pure_title_or_unknown.
  by rewrite (title_or_unknown_eval _ Hj).
Qed.

Lemma fold_counts_eval (l : list Doc) (c : Counts) :
  Forall titleable l →
  eval (fold_each l c count_lead) = Ok (foldl counted c l).
Proof.
  intros Hl. revert c. induction Hl as [|x l Hx Hl IH]; intros c; [done|].
  simpl. rewrite eval_bind by apply pure_count_lead.
  rewrite (count_lead_eval c x Hx). apply IH.
Qed.








(** * Further properties of the document store *)







Lemma apply_set_no_match (flt u : Doc) (l : list Doc) :
  Forall (fun d => ¬ Matches flt d) l →
  apply_set flt u <$> l = l ∧ filter (fun d => apply_set flt u d ≠ d) l = [].
Proof.
  induction 1 as [|d l Hd Hl [IH1 IH2]]; [done|]. split.
  - rewrite fmap_cons, IH1. unfold apply_set. by rewrite decide_False.
  - rewrite filter_cons_False; [exact IH2|].
    intros Hne. apply Hne. unfold apply_set. by rewrite decide_False.
Qed.

(** X4: when no document of the collection passes the filter,
    [update_document] reports 0 and leaves the store as it was. *)
Theorem update_document_no_match (name : string) (flt upd : Doc) (w : World) :
  (∀ d, d ∈ collection name w → ¬ Matches flt d) →
  ∃ w', update_document name flt upd w = (Ok 0%nat, w') ∧ db w' = db w.
Proof.
  intros Hnone. apply Forall_forall in Hnone.
  unfold update_document, update_many, now_tz. run.
  change (collection name (set_ticks (S (ticks w)) w)) with (collection name w).
  destruct (apply_set_no_match flt (<["updated_at":=VTime (clock w (ticks w))]> upd)
              _ Hnone) as [Hid Hzero].
  rewrite Hzero. eexists. split; [reflexivity|]. simpl.
  apply map_eq. intros key. rewrite lookup_alter. case_decide; [subst|done].
  unfold collection in Hid.
  destruct (db w !! key) as [l|]; simpl in *; [|done]. by rewrite Hid.
Qed.

Lemma update_document_no_match_witness :
  ∃ w', update_document "lead" {["_id" := VStr "7"]} {["status" := VStr "Won"]} world1
        = (Ok 0%nat, w') ∧ db w' = db world1.
Proof.
  apply (update_document_no_match "lead" {["_id" := VStr "7"]} {["status" := VStr "Won"]} world1).
  change (collection "lead" world1) with [lead_ali].
  intros d Hd. apply list_elem_of_singleton in Hd. subst d.
  by_compute.
Defined.

(** X5: [get_documents] returns and changes nothing.  With a limit of 0 it
    returns every document that passes the filter, otherwise the first
    [limit] of them; the i-th result is the i-th passing document, with its
    identifier turned into a string and every other field kept. *)
Theorem get_documents_bounded (name : string) (flt : Doc) (limit : N) (w : World) :
  ∃ docs,
    get_documents name flt limit w = (Ok docs, w)
    ∧ length docs
      = (if decide (limit = 0%N) then length (filter (Matches flt) (collection name w))
         else N.to_nat limit `min` length (filter (Matches flt) (collection name w)))
    ∧ ∀ (i : nat) (d : Doc), docs !! i = Some d →
        is_str (doc_get d "_id") = true
        ∧ ∃ d0, filter (Matches flt) (collection name w) !! i = Some d0
                ∧ Matches flt d0
                ∧ ∀ k, k ≠ "_id" → d !! k = d0 !! k.
Proof.
  unfold get_documents, find. run. eexists. split; [reflexivity|].
  split.
  { rewrite length_fmap. case_decide; [done|]. by rewrite length_take. }
  intros i d Hd. rewrite list_lookup_fmap in Hd.
  destruct (_ !! i) as [d0|] eqn:Hd0; [|done]. simpl in Hd. injection Hd as <-.
  split; [apply str_id_is_str|].
  assert (Hin : filter (Matches flt) (collection name w) !! i = Some d0).
  { case_decide; [done|]. apply lookup_take_Some in Hd0. tauto. }
  exists d0. split; [done|].
  split; [by apply list_elem_of_lookup_2, list_elem_of_filter in Hin as [? _]|].
  intros k Hk. unfold str_id. by rewrite lookup_insert_ne.
Qed.

(** * Further properties of the normalizer and of the ingestion endpoints *)

Lemma py_or_idem (v d : Value) : py_or (py_or v d) d = py_or v d.
Proof. unfold py_or. destruct (truthy v) eqn:Hv; [by rewrite Hv|]. by destruct (truthy d). Qed.

Lemma resolved_timestamp_truthy (data : Doc) (w : World) :
  truthy (resolved_timestamp data w) = true.
Proof. unfold resolved_timestamp. by destruct (truthy (doc_get data "timestamp")) eqn:Ht. Qed.

Lemma resolved_handler_idem (data : Doc) (w w' : World) (d : Doc) :
  environ w' = environ w →
  doc_get d "assigned_sales_whatsapp" = resolved_handler data w →
  resolved_handler d w' = resolved_handler data w.
Proof.
  intros He Hd. unfold resolved_handler at 1. rewrite Hd.
  destruct (truthy (resolved_handler data w)) eqn:Hh; [done|].
  unfold resolved_handler, DEFAULT_ADMIN in *. rewrite He.
  destruct (truthy (doc_get data "assigned_sales_whatsapp")) eqn:Ha; [congruence|].
  destruct (truthy (of_opt (environ w !! "DEFAULT_ASSIGNED_WHATSAPP"))) eqn:Hb;
    [congruence|done].
Qed.

Lemma normalized_idem (data : Doc) (w w' : World) :
  environ w' = environ w → normalized (normalized data w) w' = normalized data w.
Proof.
  intros He. unfold normalized at 1.
  rewrite (resolved_handler_idem data w w' _ He) by reflexivity.
  unfold resolved_timestamp at 1.
  change (doc_get (normalized data w) "timestamp") with (resolved_timestamp data w).
  rewrite resolved_timestamp_truthy.
  change (doc_get (normalized data w) "name")
    with (py_or (doc_get data "name") (VStr "Unknown")).
  change (doc_get (normalized data w) "phone") with (py_or (doc_get data "phone") (VStr "")).
  rewrite !py_or_idem. reflexivity.
Qed.

Lemma normalized_fields (data : Doc) (w : World) (k : string) :
  is_Some (normalized data w !! k) ↔ k ∈ Lead_fields.
Proof.
  unfold normalized, Lead_fields. rewrite !lookup_insert_is_Some', lookup_singleton_is_Some.
  rewrite !elem_of_cons, elem_of_nil. intuition congruence.
Qed.

(** X6: [normalize_lead] always returns a record with exactly the ten fields
    of the [Lead] model, whatever keys its input has; it writes neither the
    store nor the outbox nor the environment; and it is idempotent: to
    normalize its result once more gives the same record and changes
    nothing. *)
Theorem normalize_lead_shape (data : Doc) (w : World) :
  ∃ out w',
    normalize_lead data w = (Ok out, w')
    ∧ (∀ k, is_Some (out !! k) ↔ k ∈ Lead_fields)
    ∧ db w' = db w ∧ outbox w' = outbox w ∧ environ w' = environ w
    ∧ normalize_lead out w' = (Ok out, w').
Proof.
  eexists _, _. split; [apply normalize_lead_run|].
  split; [apply normalized_fields|].
  assert (He : environ (if truthy (doc_get data "timestamp") then w
                        else set_ticks (S (ticks w)) w) = environ w)
    by (by destruct (truthy _)).
  split; [by destruct (truthy _)|]. split; [by destruct (truthy _)|].
  split; [exact He|].
  rewrite normalize_lead_run, (normalized_idem _ _ _ He).
  change (doc_get (normalized data w) "timestamp") with (resolved_timestamp data w).
  by rewrite resolved_timestamp_truthy.
Qed.

(** X7: unless [DEFAULT_ADMIN_WHATSAPP] is set to the empty string, the
    handler of a normalized record is never empty; and a handler that the
    input supplies is kept. *)
Theorem normalize_lead_assigns_handler (data : Doc) (w : World) :
  environ w !! "DEFAULT_ADMIN_WHATSAPP" ≠ Some "" →
  ∃ out w',
    normalize_lead data w = (Ok out, w')
    ∧ truthy (doc_get out "assigned_sales_whatsapp") = true
    ∧ (truthy (doc_get data "assigned_sales_whatsapp") = true →
       doc_get out "assigned_sales_whatsapp" = doc_get data "assigned_sales_whatsapp").
Proof.
  intros Henv. eexists _, _. split; [apply normalize_lead_run|].
  change (doc_get (normalized data w) "assigned_sales_whatsapp")
    with (resolved_handler data w).
  unfold resolved_handler, DEFAULT_ADMIN.
  destruct (truthy (doc_get data "assigned_sales_whatsapp")) eqn:Ha; [done|].
  split; [|done].
  destruct (truthy (of_opt (environ w !! "DEFAULT_ASSIGNED_WHATSAPP"))) eqn:Hb; [done|].
  destruct (environ w !! "DEFAULT_ADMIN_WHATSAPP") as [s|]; [|done]. simpl.
  apply negb_true_iff, bool_decide_eq_false. by intros ->.
Qed.

Lemma normalize_lead_assigns_handler_witness :
  ∃ out w',
    normalize_lead {["assigned_sales_whatsapp" := VStr "+60177"]} world0 = (Ok out, w')
    ∧ truthy (doc_get out "assigned_sales_whatsapp") = true
    ∧ doc_get out "assigned_sales_whatsapp" = VStr "+60177".
Proof.
  destruct (normalize_lead_assigns_handler
              {["assigned_sales_whatsapp" := VStr "+60177"]} world0)
    as (out & w' & Hrun & Ht & Hkeep); [by intros H|].
  exists out, w'. split; [exact Hrun|]. split; [exact Ht|].
  apply Hkeep. reflexivity.
Defined.





Lemma dump_manual_timestamp (p : ManualLeadIn.t) :
  doc_get (<["source" := VStr "manual"]> (ManualLeadIn.model_dump_exclude_none p))
    "timestamp" = VNone.
Proof.
  unfold doc_get. rewrite lookup_insert_ne by done.
  unfold ManualLeadIn.model_dump_exclude_none.
  rewrite !lookup_insert_ne by done.
  rewrite !put_opt_lookup_ne by done. by rewrite lookup_empty.
Qed.

Lemma dump_form_timestamp (p : ManualFormIn.t) :
  doc_get (<["source" := VStr "manual"]> (ManualFormIn.model_dump_exclude_none p))
    "timestamp" = VNone.
Proof.
  unfold doc_get. rewrite lookup_insert_ne by done.
  unfold ManualFormIn.model_dump_exclude_none.
  rewrite !lookup_insert_ne by done.
  rewrite !put_opt_lookup_ne by done. by rewrite lookup_empty.
Qed.

Lemma resolved_timestamp_now (data : Doc) (w : World) :
  doc_get data "timestamp" = VNone →
  resolved_timestamp data w = VTime (clock w (ticks w)).
Proof. intros Hd. unfold resolved_timestamp. by rewrite Hd. Qed.



Lemma all_str_empty : all_str ∅.
Proof. intros k v Hk. by rewrite lookup_empty in Hk. Qed.

Lemma all_str_insert (k : string) (s : string) (d : Doc) :
  all_str d → all_str (<[k := VStr s]> d).
Proof.
  intros Hd k' v. destruct (decide (k = k')) as [->|Hk].
  - rewrite lookup_insert_eq. by intros [= <-].
  - rewrite lookup_insert_ne by done. apply Hd.
Qed.

Lemma all_str_put_opt (k : string) (o : option string) (d : Doc) :
  all_str d → all_str (put_opt k o d).
Proof. intros Hd. destruct o; [by apply all_str_insert|done]. Qed.

Lemma all_str_get (d : Doc) (k : string) :
  all_str d → is_Optional_str (doc_get d k) = true.
Proof.
  intros Hd. unfold doc_get. destruct (d !! k) as [v|] eqn:Hk; [|done].
  apply Hd in Hk. by destruct v.
Qed.

Lemma all_str_webhook (p : WebhookIn.t) (tag : string) :
  all_str (<["source" := VStr tag]> (WebhookIn.model_dump_exclude_none p)).
Proof.
  apply all_str_insert. unfold WebhookIn.model_dump_exclude_none.
  repeat apply all_str_put_opt. apply all_str_empty.
Qed.

Lemma all_str_manual (p : ManualLeadIn.t) :
  all_str (<["source" := VStr "manual"]> (ManualLeadIn.model_dump_exclude_none p)).
Proof.
  unfold ManualLeadIn.model_dump_exclude_none. do 3 apply all_str_insert.
  repeat apply all_str_put_opt. apply all_str_empty.
Qed.

Lemma all_str_form (p : ManualFormIn.t) :
  all_str (<["source" := VStr "manual"]> (ManualFormIn.model_dump_exclude_none p)).
Proof.
  unfold ManualFormIn.model_dump_exclude_none. do 3 apply all_str_insert.
  repeat apply all_str_put_opt. apply all_str_empty.
Qed.

Lemma is_str_py_or (v : Value) (s : string) :
  is_Optional_str v = true → is_str (py_or v (VStr s)) = true.
Proof. unfold py_or. destruct v as [|s0|]; simpl; try done. by destruct (negb _). Qed.

Lemma resolved_handler_optional_str (data : Doc) (w : World) :
  is_Optional_str (doc_get data "assigned_sales_whatsapp") = true →
  is_Optional_str (resolved_handler data w) = true.
Proof.
  intros Ha. unfold resolved_handler.
  destruct (truthy (doc_get data "assigned_sales_whatsapp")); [done|].
  destruct (environ w !! "DEFAULT_ASSIGNED_WHATSAPP") as [s|]; simpl; [|done].
  by destruct (negb _).
Qed.

Lemma is_Lead_normalized (data : Doc) (w : World) (t : Z) :
  is_Optional_str (doc_get data "name") = true →
  is_Optional_str (doc_get data "phone") = true →
  is_Optional_str (doc_get data "area") = true →
  is_Optional_str (doc_get data "job_category") = true →
  is_Optional_str (doc_get data "description") = true →
  is_Optional_str (doc_get data "assigned_sales_whatsapp") = true →
  is_Source (doc_get_or data "source" (VStr "manual")) = true →
  resolved_timestamp data w = VTime t →
  is_Lead (normalized data w) = true.
Proof.
  intros Hn Hp Ha Hj Hd Hs Hsrc Ht. unfold is_Lead.
  change (doc_get (normalized data w) "name")
    with (py_or (doc_get data "name") (VStr "Unknown")).
  change (doc_get (normalized data w) "phone") with (py_or (doc_get data "phone") (VStr "")).
  change (doc_get (normalized data w) "area") with (doc_get data "area").
  change (doc_get (normalized data w) "job_category") with (doc_get data "job_category").
  change (doc_get (normalized data w) "description") with (doc_get data "description").
  change (doc_get (normalized data w) "source")
    with (doc_get_or data "source" (VStr "manual")).
  change (doc_get (normalized data w) "timestamp") with (resolved_timestamp data w).
  change (doc_get_or (normalized data w) "status" (VStr "New")) with (VStr "New").
  change (doc_get (normalized data w) "assigned_sales_whatsapp")
    with (resolved_handler data w).
  change (doc_get (normalized data w) "last_sales_reply_at") with VNone.
  rewrite (is_str_py_or _ _ Hn), (is_str_py_or _ _ Hp), Ha, Hj, Hd, Hsrc, Ht.
  by rewrite (resolved_handler_optional_str _ _ Hs).
Qed.

Lemma is_Lead_ext (d d' : Doc) :
  (∀ k, k ∈ Lead_fields → d !! k = d' !! k) → is_Lead d = is_Lead d'.
Proof.
  intros H. unfold is_Lead, doc_get, doc_get_or, Lead_fields in *.
  rewrite (H "name"), (H "phone"), (H "area"), (H "job_category"), (H "description"),
    (H "source"), (H "timestamp"), (H "status"), (H "assigned_sales_whatsapp"),
    (H "last_sales_reply_at") by by_compute.
  reflexivity.
Qed.

Lemma Lead_fields_stored (k : string) :
  k ∈ Lead_fields → k ≠ "_id" ∧ k ≠ "created_at" ∧ k ≠ "updated_at".
Proof.
  unfold Lead_fields. rewrite !elem_of_cons, elem_of_nil.
  intros H. repeat split; intros ->; intuition discriminate.
Qed.


Lemma is_Lead_dump (data : Doc) (w : World) :
  all_str data →
  doc_get data "timestamp" = VNone →
  is_Source (doc_get_or data "source" (VStr "manual")) = true →
  is_Lead (normalized data w) = true.
Proof.
  intros Hs Ht Hsrc.
  apply (is_Lead_normalized data w (clock w (ticks w)));
    try (by apply all_str_get); [done|by apply resolved_timestamp_now].
Qed.

Lemma is_Source_tagged (tag : string) (d : Doc) :
  tag ∈ Source →
  is_Source (doc_get_or (<["source" := VStr tag]> d) "source" (VStr "manual")) = true.
Proof.
  intros Ht. unfold doc_get_or. rewrite lookup_insert_eq. simpl.
  by apply bool_decide_eq_true.
Qed.



(** X10: the manual endpoint and the form endpoint of the frontend are the
    same service up to the wording of the notification: on the same fields
    they give the same response and leave the same store, the same master
    sheet and the same recipients in the outbox. *)
Theorem manual_entry_points_agree (p : ManualLeadIn.t) (w : World) :
  (create_lead (form_of p) w).1 = (ingest_manual p w).1
  ∧ db (create_lead (form_of p) w).2 = db (ingest_manual p w).2
  ∧ sheet1 (create_lead (form_of p) w).2 = sheet1 (ingest_manual p w).2
  ∧ (fst <$> outbox (create_lead (form_of p) w).2)
    = (fst <$> outbox (ingest_manual p w).2).
Proof.
  unfold create_lead, ingest_manual.
  change (ManualFormIn.model_dump_exclude_none (form_of p))
    with (ManualLeadIn.model_dump_exclude_none p).
  unfold mbind, M_bind.
  destruct (normalize_lead _ w) as [[d|e] w1]; [|done].
  destruct (_save_and_sheet d w1) as [[lead|e] w2]; [|done].
  rewrite !send_whatsapp_message_run. unfold mret, M_ret.
  cbn [fst snd db sheet1 outbox set_outbox].
  by rewrite !fmap_app.
Qed.

(** * Keywords, letter case and excerpts *)






(** ** Letter case *)









(** ** The quoted excerpt *)




(** * The counters of the daily summary *)

Lemma total_count_insert `{Countable K} (k : K) (n : nat) (d : gmap K nat) :
  d !! k = None → total_count (<[k := n]> d) = (n + total_count d)%nat.
Proof.
  intros Hk. unfold total_count. rewrite map_fold_insert_L; [done| |done].
  intros. lia.
Qed.

Lemma total_count_delete `{Countable K} (k : K) (d : gmap K nat) :
  total_count d = (d !!! k + total_count (delete k d))%nat.
Proof.
  rewrite lookup_total_alt. destruct (d !! k) as [n|] eqn:Hk; simpl.
  - rewrite <- (insert_delete_id d k n Hk) at 1.
    by rewrite total_count_insert by apply lookup_delete_eq.
  - by rewrite delete_id.
Qed.

Lemma total_count_bump `{Countable K} (k : K) (d : gmap K nat) :
  total_count (bump k d) = S (total_count d).
Proof.
  rewrite (total_count_delete k (bump k d)), (total_count_delete k d).
  unfold bump. rewrite lookup_total_insert_eq, delete_insert_eq.
  by rewrite lookup_total_alt.
Qed.

Lemma total_counted (l : list Doc) (c : Counts) :
  total_count (by_status (foldl counted c l)) = (total_count (by_status c) + length l)%nat
  ∧ total_count (by_area (foldl counted c l)) = (total_count (by_area c) + length l)%nat
  ∧ total_count (by_job (foldl counted c l)) = (total_count (by_job c) + length l)%nat.
Proof.
  revert c. induction l as [|x l IH]; intros c; simpl; [repeat split; lia|].
  destruct (IH (counted c x)) as (-> & -> & ->). unfold counted. simpl.
  rewrite !total_count_bump. repeat split; lia.
Qed.

Lemma printed_le_total (d : gmap Value nat) : (printed_statuses d <= total_count d)%nat.
Proof.
  unfold printed_statuses.
  rewrite (total_count_delete (VStr "New") d).
  rewrite (total_count_delete (VStr "In progress") (delete _ d)).
  rewrite (total_count_delete (VStr "Won") (delete _ (delete _ d))).
  rewrite (total_count_delete (VStr "Lost") (delete _ (delete _ (delete _ d)))).
  rewrite !lookup_total_delete_ne by done. lia.
Qed.

Lemma printed_eq_total (d : gmap Value nat) :
  (∀ k n, d !! k = Some n → is_Status k = true) →
  printed_statuses d = total_count d.
Proof.
  intros Hd. unfold printed_statuses.
  rewrite (total_count_delete (VStr "New") d).
  rewrite (total_count_delete (VStr "In progress") (delete _ d)).
  rewrite (total_count_delete (VStr "Won") (delete _ (delete _ d))).
  rewrite (total_count_delete (VStr "Lost") (delete _ (delete _ (delete _ d)))).
  rewrite !lookup_total_delete_ne by done.
  assert (He : delete (VStr "Lost") (delete (VStr "Won")
                 (delete (VStr "In progress") (delete (VStr "New") d))) = ∅).
  { apply map_eq. intros k. rewrite lookup_empty.
    destruct (decide (VStr "Lost" = k)) as [<-|]; [by rewrite lookup_delete_eq|].
    rewrite lookup_delete_ne by done.
    destruct (decide (VStr "Won" = k)) as [<-|]; [by rewrite lookup_delete_eq|].
    rewrite lookup_delete_ne by done.
    destruct (decide (VStr "In progress" = k)) as [<-|]; [by rewrite lookup_delete_eq|].
    rewrite lookup_delete_ne by done.
    destruct (decide (VStr "New" = k)) as [<-|]; [by rewrite lookup_delete_eq|].
    rewrite lookup_delete_ne by done.
    destruct (d !! k) as [n'|] eqn:Hk; [|done]. apply Hd in Hk.
    destruct k as [|s|]; simpl in Hk; try done.
    apply bool_decide_eq_true in Hk. unfold Status in Hk.
    rewrite !elem_of_cons, elem_of_nil in Hk. intuition congruence. }
  rewrite He. unfold total_count at 1. rewrite map_fold_empty. lia.
Qed.

Lemma known_statuses_counted (l : list Doc) (c : Counts) :
  Forall known_status l →
  (∀ k n, by_status c !! k = Some n → is_Status k = true) →
  ∀ k n, by_status (foldl counted c l) !! k = Some n → is_Status k = true.
Proof.
  intros Hl. revert c. induction Hl as [|x l Hx Hl IH]; intros c Hc; [done|].
  simpl. apply IH. unfold counted, bump. simpl. intros k n.
  destruct (decide (doc_get_or x "status" (VStr "New") = k)) as [<-|Hk].
  - intros _. exact Hx.
  - rewrite lookup_insert_ne by done. apply Hc.
Qed.

Lemma known_statuses_counts0 (k : Value) (n : nat) :
  by_status counts0 !! k = Some n → is_Status k = true.
Proof.
  unfold counts0. simpl. rewrite !lookup_insert_Some, lookup_singleton_Some.
  intros H. assert (Hk : k ∈ [VStr "New"; VStr "In progress"; VStr "Won"; VStr "Lost"]).
  { rewrite !elem_of_cons. intuition auto. }
  rewrite !elem_of_cons, elem_of_nil in Hk.
  destruct Hk as [->|[->|[->|[->|[]]]]]; reflexivity.
Qed.

(** X14: over leads whose area and job category are strings or absent, the
    counting loop of the daily summary returns, and its counters add up: the
    area counts, the job counts and the status counts each sum to the number
    of leads.  The four counts of the status line sum to at most that number,
    and to exactly that number when every lead has one of the four
    statuses. *)
Theorem summary_counts_add_up (leads : list Doc) :
  Forall titleable leads →
  ∃ c, eval (fold_each leads counts0 count_lead) = Ok c
       ∧ total_count (by_area c) = length leads
       ∧ total_count (by_job c) = length leads
       ∧ total_count (by_status c) = length leads
       ∧ (printed_statuses (by_status c) <= length leads)%nat
       ∧ (Forall known_status leads → printed_statuses (by_status c) = length leads).
Proof.
  intros Hl. exists (foldl counted counts0 leads).
  split; [by apply fold_counts_eval|].
  destruct (total_counted leads counts0) as (Hs & Ha & Hj).
  assert (H0 : total_count (by_status counts0) = 0%nat) by reflexivity.
  assert (H1 : total_count (by_area counts0) = 0%nat) by reflexivity.
  assert (H2 : total_count (by_job counts0) = 0%nat) by reflexivity.
  rewrite H0 in Hs. rewrite H1 in Ha. rewrite H2 in Hj.
  split; [exact Ha|]. split; [exact Hj|]. split; [exact Hs|].
  pose proof (printed_le_total (by_status (foldl counted counts0 leads))).
  split; [lia|]. intros Hk.
  rewrite (printed_eq_total (by_status (foldl counted counts0 leads))); [exact Hs|].
  by apply known_statuses_counted, known_statuses_counts0.
Qed.

Lemma summary_counts_add_up_witness :
  ∃ c, eval (fold_each [lead_ali; lead_siti; lead_chong] counts0 count_lead) = Ok c
       ∧ total_count (by_area c) = 3%nat
       ∧ total_count (by_job c) = 3%nat
       ∧ total_count (by_status c) = 3%nat
       ∧ (printed_statuses (by_status c) <= 3)%nat
       ∧ printed_statuses (by_status c) = 3%nat.
Proof.
  destruct (summary_counts_add_up [lead_ali; lead_siti; lead_chong])
    as (c & Hrun & Ha & Hj & Hs & Hle & Heq); [repeat constructor|].
  exists c. repeat (split; [assumption|]). apply Heq. repeat constructor.
Defined.

(** * What every service keeps *)

Lemma patch_of_mutable_stamp (upd : Doc) (v : Value) :
  patch_of_mutable upd → patch_of_mutable (<["updated_at" := v]> upd).
Proof.
  intros Hu k Hk. rewrite lookup_insert_ne; [by apply Hu|].
  intros <-. apply Hk. unfold mutable_fields. set_solver.
Qed.

Lemma patch_of_mutable_reply (t : Z) :
  patch_of_mutable {["last_sales_reply_at" := VTime t; "status" := VStr "In progress"]}.
Proof.
  intros k Hk. unfold mutable_fields in Hk.
  rewrite lookup_insert_ne by set_solver. rewrite lookup_singleton_ne by set_solver. done.
Qed.

Lemma patch_of_mutable_status (st : string) : patch_of_mutable {["status" := VStr st]}.
Proof.
  intros k Hk. unfold mutable_fields in Hk. rewrite lookup_singleton_ne by set_solver. done.
Qed.

Section Keeps.
Context (R : relation World) `{!PreOrder R}.

Lemma keeps_ret {A} (a : A) : keeps R (mret a : M A).
Proof. intros w. reflexivity. Qed.

Lemma keeps_raise {A} (e : Exn) : keeps R (raise e : M A).
Proof. intros w. reflexivity. Qed.

Lemma keeps_gets {A} (f : World → A) : keeps R (gets f).
Proof. intros w. reflexivity. Qed.

Lemma keeps_bind {A B} (m : M A) (f : A → M B) :
  keeps R m → (∀ a, keeps R (f a)) → keeps R (m ≫= f).
Proof.
  intros Hm Hf w. unfold mbind, M_bind. specialize (Hm w).
  destruct (m w) as [[a|e] w1]; simpl in *; [|done].
  etrans; [exact Hm|apply Hf].
Qed.

Lemma keeps_ret_bind {A B} (a : A) (f : A → M B) :
  keeps R (f a) → keeps R (mret a ≫= f).
Proof. intros Hf w. apply Hf. Qed.

Lemma keeps_for_each {A} (l : list A) (body : A → M unit) :
  (∀ x, keeps R (body x)) → keeps R (for_each l body).
Proof.
  intros Hb. induction l as [|x l IH]; simpl; [apply keeps_ret|].
  apply keeps_bind; [apply Hb|intros _; exact IH].
Qed.

Lemma keeps_fold_each {A S} (l : list A) (s : S) (body : S → A → M S) :
  (∀ s x, keeps R (body s x)) → keeps R (fold_each l s body).
Proof.
  intros Hb. revert s. induction l as [|x l IH]; intros s; simpl; [apply keeps_ret|].
  apply keeps_bind; [apply Hb|intros s'; apply IH].
Qed.

Lemma keeps_filter_each {A} (l : list A) (p : A → M bool) :
  (∀ x, keeps R (p x)) → keeps R (filter_each l p).
Proof.
  intros Hp. induction l as [|x l IH]; simpl; [apply keeps_ret|].
  apply keeps_bind; [apply Hp|intros b].
  apply keeps_bind; [exact IH|intros rest; apply keeps_ret].
Qed.

(** What the relation has to allow: a reading of the clock, a message handed
    to the sender, a row on either sheet, a document the services insert, and
    an update of the mutable fields of leads. *)
Hypothesis on_tick : ∀ w, R w (set_ticks (S (ticks w)) w).
Hypothesis on_send : ∀ w m, R w (set_outbox (outbox w ++ [m]) w).
Hypothesis on_row : ∀ w r, R w (set_sheet1 (sheet1 w ++ [r]) w).
Hypothesis on_log_row : ∀ w r, R w (set_log_sheet (log_sheet w ++ [r]) w).
Hypothesis on_lead : ∀ w data,
  data !! "_id" = None → is_Lead data = true → R w (insert_one "lead" data w).2.
Hypothesis on_log : ∀ w data,
  data !! "_id" = None → R w (insert_one "lead_log" data w).2.
Hypothesis on_update : ∀ w flt upd,
  patch_of_mutable upd → R w (update_many "lead" flt upd w).2.

Ltac keeps_step :=
  first
    [ apply keeps_ret | apply keeps_raise | apply keeps_gets
    | match goal with
      | |- keeps _ ((if ?b then _ else _) ≫= _) => destruct b
      end
    | match goal with
      | |- keeps _ (mret _ ≫= _) => apply keeps_ret_bind; cbv beta
      | |- keeps _ (_ ≫= _) => apply keeps_bind; [|intros ?]
      end
    | apply keeps_for_each; intros ?
    | apply keeps_fold_each; intros ? ?
    | apply keeps_filter_each; intros ?
    | match goal with
      | |- keeps _ (if ?b then _ else _) => destruct b
      | |- keeps _ (match ?o with Some _ => _ | None => _ end) => destruct o
      | |- keeps _ (match ?v with VNone => _ | VStr _ => _ | VTime _ => _ end) => destruct v
      end
    | progress cbv zeta ].

Lemma keeps_now_tz : keeps R now_tz.
Proof. intros w. apply on_tick. Qed.

Lemma keeps_send (to_number : Value) (message : string) :
  keeps R (send_whatsapp_message to_number message).
Proof. intros w. rewrite send_whatsapp_message_run. apply on_send. Qed.

Lemma keeps_append_to_sheet (row : list Value) : keeps R (_append_to_sheet row).
Proof.
  intros w. unfold _append_to_sheet, modify. simpl.
  destruct (gsheet_up w); [apply on_row|reflexivity].
Qed.

Lemma keeps_append_log (row : list Value) : keeps R (_append_log row).
Proof.
  intros w. unfold _append_log, modify. simpl.
  destruct (gsheet_up w); [apply on_log_row|reflexivity].
Qed.

Lemma keeps_create_lead (data : Doc) :
  data !! "_id" = None → is_Lead data = true → keeps R (create_document "lead" data).
Proof.
  intros Hid Hv. unfold create_document. repeat keeps_step; [apply keeps_now_tz|].
  intros w. apply on_lead; [by rewrite !setdefault_lookup_ne|].
  rewrite <- Hv. apply is_Lead_ext. intros k Hk.
  apply Lead_fields_stored in Hk as (?&?&?).
  by rewrite !setdefault_lookup_ne by congruence.
Qed.

Lemma keeps_create_log (data : Doc) :
  data !! "_id" = None → keeps R (create_document "lead_log" data).
Proof.
  intros Hid. unfold create_document. repeat keeps_step; [apply keeps_now_tz|].
  intros w. apply on_log. by rewrite !setdefault_lookup_ne.
Qed.

Lemma keeps_update_lead (flt upd : Doc) :
  patch_of_mutable upd → keeps R (update_document "lead" flt upd).
Proof.
  intros Hu. unfold update_document. repeat keeps_step; [apply keeps_now_tz|].
  intros w. apply on_update. by apply patch_of_mutable_stamp.
Qed.

Lemma keeps_get_documents (name : string) (flt : Doc) (limit : N) :
  keeps R (get_documents name flt limit).
Proof. unfold get_documents, find. repeat keeps_step. Qed.

Lemma keeps_get_document (name : string) (flt : Doc) :
  keeps R (get_document name flt).
Proof. unfold get_document, find_one, set_str_id. repeat keeps_step. Qed.

Lemma keeps_log_status_change (lead_id from_status to_status note : Value) :
  keeps R (_log_status_change lead_id from_status to_status note).
Proof.
  unfold _log_status_change, LeadLog.
  repeat first [apply keeps_now_tz | apply keeps_create_log; reflexivity
               | apply keeps_append_log | keeps_step].
Qed.

Lemma keeps_save_and_sheet (lead_data : Doc) :
  lead_data !! "_id" = None → is_Lead lead_data = true →
  keeps R (_save_and_sheet lead_data).
Proof.
  intros Hid Hv. unfold _save_and_sheet, _sheet_row_from_lead, astimezone.
  repeat first [apply keeps_create_lead; [exact Hid|exact Hv] | apply keeps_get_document
               | apply keeps_append_to_sheet | keeps_step].
Qed.

(** The normalizer only reads; from a typed record it hands on a valid lead
    without identifier. *)
Lemma keeps_normalize_then {B} (data : Doc) (f : Doc → M B) :
  (∀ w, is_Lead (normalized data w) = true) →
  (∀ d, d !! "_id" = None → is_Lead d = true → keeps R (f d)) →
  keeps R (normalize_lead data ≫= f).
Proof.
  intros Hv Hf w. unfold mbind, M_bind. rewrite normalize_lead_run.
  etrans; [|apply Hf; [reflexivity|apply Hv]].
  destruct (truthy _); [reflexivity|apply on_tick].
Qed.

Lemma keeps_ingest {B} (data : Doc) (text : Doc → string) (k : Doc → M B) :
  (∀ w, is_Lead (normalized data w) = true) →
  (∀ lead, keeps R (k lead)) →
  keeps R (normalize_lead data ≫= λ d, _save_and_sheet d ≫= λ lead,
             send_whatsapp_message (doc_get lead "assigned_sales_whatsapp") (text lead)
             ≫= λ _, k lead).
Proof.
  intros Hv Hk. apply keeps_normalize_then; [exact Hv|]. intros d Hid Hd.
  apply keeps_bind; [by apply keeps_save_and_sheet|]. intros lead.
  apply keeps_bind; [apply keeps_send|]. intros _. apply Hk.
Qed.

Ltac keeps_service_step :=
  first [ apply keeps_send | apply keeps_log_status_change
        | apply keeps_get_document | apply keeps_get_documents
        | apply keeps_now_tz | keeps_step ].
Ltac keeps_service := repeat keeps_service_step.

Lemma keeps_ingest_webhook (payload : WebhookIn.t) : keeps R (ingest_webhook payload).
Proof.
  apply (keeps_ingest _ (new_lead_text "New lead from website: ")).
  - intros w. apply is_Lead_dump;
      [apply all_str_webhook|apply dump_timestamp|apply is_Source_tagged; by_compute].
  - intros lead. apply keeps_ret.
Qed.

Lemma keeps_ingest_facebook (payload : WebhookIn.t) : keeps R (ingest_facebook payload).
Proof.
  apply (keeps_ingest _ (new_lead_text "New Facebook lead: ")).
  - intros w. apply is_Lead_dump;
      [apply all_str_webhook|apply dump_timestamp|apply is_Source_tagged; by_compute].
  - intros lead. apply keeps_ret.
Qed.

Lemma keeps_ingest_manual (payload : ManualLeadIn.t) : keeps R (ingest_manual payload).
Proof.
  apply (keeps_ingest _ (new_lead_text "Manual lead added: ")).
  - intros w. apply is_Lead_dump;
      [apply all_str_manual|apply dump_manual_timestamp|apply is_Source_tagged; by_compute].
  - intros lead. apply keeps_ret.
Qed.

Lemma keeps_create_lead_form (payload : ManualFormIn.t) : keeps R (create_lead payload).
Proof.
  apply (keeps_ingest _ (new_lead_text "New lead: ")).
  - intros w. apply is_Lead_dump;
      [apply all_str_form|apply dump_form_timestamp|apply is_Source_tagged; by_compute].
  - intros lead. apply keeps_ret.
Qed.

Lemma keeps_ingest_whatsapp (msg : WhatsAppMessageIn.t) : keeps R (ingest_whatsapp msg).
Proof.
  unfold ingest_whatsapp. cbv zeta. destruct (negb _).
  - repeat first [ apply keeps_update_lead, patch_of_mutable_reply | keeps_service_step ].
  - apply (keeps_ingest (whatsapp_data msg)
             (fun lead => "New WhatsApp lead: " +:+ py_str (doc_get lead "phone") +:+ " → '"
                          +:+ str_take 80 (WhatsAppMessageIn.message msg) +:+ "'")).
    + intros w. by apply (is_Lead_normalized _ w (WhatsAppMessageIn.timestamp msg)).
    + intros lead. apply keeps_ret.
Qed.

Lemma keeps_update_status (payload : StatusUpdateIn.t) : keeps R (update_status payload).
Proof.
  unfold update_status.
  repeat first [ apply keeps_update_lead, patch_of_mutable_status | keeps_service_step ].
Qed.

Lemma keeps_time_le (v : Value) (t : Z) : keeps R (time_le v t).
Proof. unfold time_le. repeat keeps_step. Qed.

Lemma keeps_follow_up_checks : keeps R follow_up_checks.
Proof.
  unfold follow_up_checks, remind_15, follow_up_24.
  repeat first [ apply keeps_time_le | keeps_service_step ].
Qed.

Lemma keeps_daily_summary_job : keeps R daily_summary_job.
Proof.
  unfold daily_summary_job, count_lead, title_or_unknown, is_overdue.
  repeat first [ apply keeps_time_le | keeps_service_step ].
Qed.

End Keeps.

(** ** Nothing is ever taken away *)

Lemma extends_preorder : PreOrder extends.
Proof.
  split.
  - intros w. split; try done.
    intros i d Hd. by exists d.
  - intros w1 w2 w3 [] []. split.
    + by eapply same_env_trans.
    + lia.
    + intros name. etrans; eauto.
    + intros i d Hd. destruct (ex_leads0 i d Hd) as (d2 & Hd2 & Hk2).
      destruct (ex_leads1 i d2 Hd2) as (d3 & Hd3 & Hk3).
      exists d3. split; [done|]. intros k Hk. by rewrite Hk3, Hk2.
    + by etrans.
    + by etrans.
    + by etrans.
    + by etrans.
Qed.

Lemma extends_tick (w : World) : extends w (set_ticks (S (ticks w)) w).
Proof.
  split; try done; try (split; simpl; try done; lia).
  intros i d Hd. by exists d.
Qed.

Lemma extends_send (w : World) (m : Value * string) :
  extends w (set_outbox (outbox w ++ [m]) w).
Proof.
  split; try done; try apply same_env_refl; try (by apply prefix_app_r).
  intros i d Hd. by exists d.
Qed.

Lemma extends_row (w : World) (r : list Value) :
  extends w (set_sheet1 (sheet1 w ++ [r]) w).
Proof.
  split; try done; try apply same_env_refl; try (by apply prefix_app_r).
  intros i d Hd. by exists d.
Qed.

Lemma extends_log_row (w : World) (r : list Value) :
  extends w (set_log_sheet (log_sheet w ++ [r]) w).
Proof.
  split; try done; try apply same_env_refl; try (by apply prefix_app_r).
  intros i d Hd. by exists d.
Qed.

Lemma collection_inserted (name name' : string) (data : Doc) (w : World) :
  ∃ d, d !! "_id" = Some (default (VStr (pretty (next_oid w))) (data !! "_id"))
       ∧ (∀ k, k ≠ "_id" → d !! k = data !! k)
       ∧ collection name' (insert_one name data w).2
         = if decide (name = name') then collection name w ++ [d] else collection name' w.
Proof.
  unfold insert_one. simpl. eexists. split; [|split].
  3: { unfold collection at 1. simpl. rewrite lookup_insert. 
       case_decide; [subst; reflexivity|reflexivity]. }
  - destruct (data !! "_id") eqn:Hid; simpl; [done|]. by rewrite lookup_insert_eq.
  - intros k Hk. destruct (data !! "_id") eqn:Hid; [done|]. by rewrite lookup_insert_ne.
Qed.

Lemma extends_insert (name : string) (data : Doc) (w : World) :
  extends w (insert_one name data w).2.
Proof.
  split.
  - split; simpl; try done; lia.
  - simpl. lia.
  - intros name'. destruct (collection_inserted name name' data w) as (d & _ & _ & ->).
    case_decide; [subst; rewrite length_app; lia|done].
  - intros i d Hd. destruct (collection_inserted name "lead" data w) as (d' & _ & _ & ->).
    exists d. split; [|done]. case_decide; [subst|done]. by apply lookup_app_l_Some.
  - destruct (collection_inserted name "lead_log" data w) as (d' & _ & _ & ->).
    case_decide; [subst|done]. by apply prefix_app_r.
  - done.
  - done.
  - done.
Qed.

Lemma extends_update (flt upd : Doc) (w : World) :
  patch_of_mutable upd → extends w (update_many "lead" flt upd w).2.
Proof.
  intros Hu. unfold update_many. simpl. split; try done.
  - intros name. rewrite collection_alter. case_decide; [|done].
    by rewrite length_fmap.
  - intros i d Hd. rewrite collection_alter, decide_True by done.
    rewrite list_lookup_fmap, Hd. simpl. eexists. split; [done|].
    intros k Hk. unfold apply_set. case_decide; [|done].
    rewrite lookup_union_r; [done|]. by apply Hu.
  - by rewrite collection_alter, decide_False.
Qed.

(** X15: whatever an endpoint or a job does, returning or raising, it only
    adds: no stored document, message or spreadsheet row is gone afterwards,
    the earlier log is a prefix of the later log, a lead keeps its position
    and every field other than [status], [last_sales_reply_at] and
    [updated_at], the clock and the identifier supply do not run backwards,
    and the environment is as it was. *)
Theorem services_only_add :
  (∀ p, keeps extends (ingest_webhook p))
  ∧ (∀ p, keeps extends (ingest_facebook p))
  ∧ (∀ p, keeps extends (ingest_manual p))
  ∧ (∀ p, keeps extends (create_lead p))
  ∧ (∀ msg, keeps extends (ingest_whatsapp msg))
  ∧ (∀ p, keeps extends (update_status p))
  ∧ keeps extends follow_up_checks
  ∧ keeps extends daily_summary_job.
Proof.
  pose proof extends_preorder as HR.
  pose proof extends_tick as H1. pose proof extends_send as H2.
  pose proof extends_row as H3. pose proof extends_log_row as H4.
  assert (H5 : ∀ w data, data !! "_id" = None → is_Lead data = true →
                 extends w (insert_one "lead" data w).2)
    by (intros; apply extends_insert).
  assert (H6 : ∀ w data, data !! "_id" = None → extends w (insert_one "lead_log" data w).2)
    by (intros; apply extends_insert).
  assert (H7 : ∀ w flt upd, patch_of_mutable upd → extends w (update_many "lead" flt upd w).2)
    by (intros; by apply extends_update).
  split; [|split; [|split; [|split; [|split; [|split; [|split]]]]]].
  - intros p. by apply keeps_ingest_webhook.
  - intros p. by apply keeps_ingest_facebook.
  - intros p. by apply keeps_ingest_manual.
  - intros p. by apply keeps_create_lead_form.
  - intros msg. by apply keeps_ingest_whatsapp.
  - intros p. by apply keeps_update_status.
  - by apply keeps_follow_up_checks.
  - by apply keeps_daily_summary_job.
Qed.

(** ** Identifiers *)

Lemma preserved_preorder (P : World → Prop) : PreOrder (preserved P).
Proof.
  split.
  - intros w Hw. exact Hw.
  - intros w1 w2 w3 H12 H23 H. apply H23, H12, H.
Qed.

Lemma ids_issued_insert (name : string) (data : Doc) (w : World) :
  data !! "_id" = None → ids_issued w → ids_issued (insert_one name data w).2.
Proof.
  intros Hid Hw name' d Hd.
  destruct (collection_inserted name name' data w) as (d0 & Hd0 & _ & Hc).
  rewrite Hc in Hd. rewrite Hid in Hd0. simpl in Hd0.
  assert (Hold : d ∈ collection name' w →
                 ∃ n, (n < S (next_oid w))%nat ∧ d !! "_id" = Some (VStr (pretty n))).
  { intros Hin. destruct (Hw name' d Hin) as (n & Hn & Hv). exists n. split; [lia|done]. }
  case_decide; [subst name'|by apply Hold].
  apply elem_of_app in Hd as [Hd|Hd]; [by apply Hold|].
  apply list_elem_of_singleton in Hd. subst d.
  exists (next_oid w). split; [simpl; lia|done].
Qed.

Lemma ids_issued_update (flt upd : Doc) (w : World) :
  patch_of_mutable upd → ids_issued w → ids_issued (update_many "lead" flt upd w).2.
Proof.
  intros Hu Hw name d Hd. unfold update_many in Hd. simpl in Hd.
  rewrite collection_alter in Hd. case_decide; [subst name|exact (Hw name d Hd)].
  apply list_elem_of_fmap in Hd as (d0 & -> & Hd0).
  destruct (Hw "lead" d0 Hd0) as (n & Hn & Hv). exists n. split; [exact Hn|].
  unfold apply_set. case_decide; [|done].
  rewrite lookup_union_r; [done|]. apply Hu. unfold mutable_fields. by_compute.
Qed.

Lemma ids_issued_fresh (w : World) : ids_issued w → fresh_lead_id w.
Proof.
  intros Hw. unfold fresh_lead_id, resolve. apply head_filter_None.
  intros d Hd Hm. apply Matches_singleton in Hm.
  destruct (Hw "lead" d Hd) as (n & Hn & Hv).
  unfold doc_get in Hm. rewrite Hv in Hm. simpl in Hm.
  injection Hm as Hp. apply (inj pretty) in Hp. lia.
Qed.

(** X16: that every stored document carries an identifier the store has
    issued is an invariant of all endpoints and jobs, returning or raising;
    and it makes the next identifier of the store fresh. *)
Theorem issued_ids_invariant (w : World) :
  ids_issued w →
  fresh_lead_id w
  ∧ (∀ p, ids_issued (ingest_webhook p w).2)
  ∧ (∀ p, ids_issued (ingest_facebook p w).2)
  ∧ (∀ p, ids_issued (ingest_manual p w).2)
  ∧ (∀ p, ids_issued (create_lead p w).2)
  ∧ (∀ msg, ids_issued (ingest_whatsapp msg w).2)
  ∧ (∀ p, ids_issued (update_status p w).2)
  ∧ ids_issued (follow_up_checks w).2
  ∧ ids_issued (daily_summary_job w).2.
Proof.
  intros Hw.
  pose proof (preserved_preorder ids_issued) as HR.
  assert (H1 : ∀ w, preserved ids_issued w (set_ticks (S (ticks w)) w)) by (by intros ? ?).
  assert (H2 : ∀ w m, preserved ids_issued w (set_outbox (outbox w ++ [m]) w))
    by (by intros ? ? ?).
  assert (H3 : ∀ w r, preserved ids_issued w (set_sheet1 (sheet1 w ++ [r]) w))
    by (by intros ? ? ?).
  assert (H4 : ∀ w r, preserved ids_issued w (set_log_sheet (log_sheet w ++ [r]) w))
    by (by intros ? ? ?).
  assert (H5 : ∀ w data, data !! "_id" = None → is_Lead data = true →
                 preserved ids_issued w (insert_one "lead" data w).2)
    by (intros ? ? ? ? ?; by apply ids_issued_insert).
  assert (H6 : ∀ w data, data !! "_id" = None →
                 preserved ids_issued w (insert_one "lead_log" data w).2)
    by (intros ? ? ? ?; by apply ids_issued_insert).
  assert (H7 : ∀ w flt upd, patch_of_mutable upd →
                 preserved ids_issued w (update_many "lead" flt upd w).2)
    by (intros ? ? ? ? ?; by apply ids_issued_update).
  split; [by apply ids_issued_fresh|].
  split; [|split; [|split; [|split; [|split; [|split; [|split]]]]]].
  - intros p. by apply (keeps_ingest_webhook (preserved ids_issued)).
  - intros p. by apply (keeps_ingest_facebook (preserved ids_issued)).
  - intros p. by apply (keeps_ingest_manual (preserved ids_issued)).
  - intros p. by apply (keeps_create_lead_form (preserved ids_issued)).
  - intros msg. by apply (keeps_ingest_whatsapp (preserved ids_issued)).
  - intros p. by apply (keeps_update_status (preserved ids_issued)).
  - by apply (keeps_follow_up_checks (preserved ids_issued)).
  - by apply (keeps_daily_summary_job (preserved ids_issued)).
Qed.

Lemma ids_issued_world3 : ids_issued world3.
Proof.
  intros name d Hd. unfold collection in Hd.
  destruct (decide (name = "lead")) as [->|Hn].
  - change (d ∈ [lead_ali; lead_siti; lead_chong]) in Hd.
    apply elem_of_cons in Hd as [->|Hd]; [exists 0%nat; split; [simpl; lia|reflexivity]|].
    apply elem_of_cons in Hd as [->|Hd]; [exists 1%nat; split; [simpl; lia|reflexivity]|].
    apply list_elem_of_singleton in Hd as ->. exists 2%nat. split; [simpl; lia|reflexivity].
  - simpl in Hd. rewrite lookup_singleton_ne in Hd by done. by apply elem_of_nil in Hd.
Qed.

Lemma issued_ids_invariant_witness :
  fresh_lead_id world3
  ∧ (∀ p, ids_issued (ingest_webhook p world3).2)
  ∧ (∀ p, ids_issued (ingest_facebook p world3).2)
  ∧ (∀ p, ids_issued (ingest_manual p world3).2)
  ∧ (∀ p, ids_issued (create_lead p world3).2)
  ∧ (∀ msg, ids_issued (ingest_whatsapp msg world3).2)
  ∧ (∀ p, ids_issued (update_status p world3).2)
  ∧ ids_issued (follow_up_checks world3).2
  ∧ ids_issued (daily_summary_job world3).2.
Proof. apply (issued_ids_invariant world3). exact ids_issued_world3. Defined.

(** ** The jobs *)

Lemma store_untouched_preorder : PreOrder store_untouched.
Proof.
  split; [intros w; by repeat split|].
  intros w1 w2 w3 (?&?&?&?) (?&?&?&?). repeat split; congruence.
Qed.

Lemma leads_untouched_preorder : PreOrder leads_untouched.
Proof.
  split; [intros w; by split|].
  intros w1 w2 w3 (?&?) (?&?). split; congruence.
Qed.

(** X17: the daily summary never writes the store or the spreadsheet.  When
    it returns it has handed exactly one message to the sender, addressed to
    the default admin; when it raises it has sent nothing. *)
Theorem daily_summary_read_only (w : World) :
  store_untouched w (daily_summary_job w).2
  ∧ match (daily_summary_job w).1 with
    | Ok _ => ∃ text, outbox (daily_summary_job w).2
                      = outbox w ++ [(VStr (DEFAULT_ADMIN w), text)]
    | Raise _ => outbox (daily_summary_job w).2 = outbox w
    end.
Proof.
  split.
  - apply (keeps_daily_summary_job store_untouched (PreOrder0 := store_untouched_preorder)).
    + by intros w0.
    + by intros w0 m.
  - destruct (daily_summary_run w) as (w' & Hrun & Hout). rewrite Hrun. simpl.
    destruct (report _ _ _) as [text|e]; [by exists text|].
    by rewrite app_nil_r in Hout.
Qed.

(** X18: a follow-up scan, returning or raising, leaves every lead and the
    master sheet as they were. *)
Theorem follow_up_checks_keeps_leads (w : World) :
  leads_untouched w (follow_up_checks w).2.
Proof.
  apply (keeps_follow_up_checks leads_untouched (PreOrder0 := leads_untouched_preorder)).
  - by intros w0.
  - by intros w0 m.
  - by intros w0 r.
  - intros w0 data _. split; [|done].
    destruct (collection_inserted "lead_log" "lead" data w0) as (d & _ & _ & ->).
    by rewrite decide_False.
Qed.

(** * The spreadsheet is only written *)

Lemma blind_prim {A} (m : M A) :
  (∀ w, (m w).1 = (m (off_sheet w)).1
        ∧ off_sheet (m w).2 = off_sheet (m (off_sheet w)).2) →
  sheet_blind m.
Proof.
  intros Hm w1 w2 H. destruct (Hm w1) as [-> ->], (Hm w2) as [-> ->].
  by rewrite H.
Qed.

Lemma blind_ret {A} (a : A) : sheet_blind (mret a : M A).
Proof. by intros w1 w2 H. Qed.

Lemma blind_raise {A} (e : Exn) : sheet_blind (raise e : M A).
Proof. by intros w1 w2 H. Qed.

Lemma blind_gets {A} (f : World → A) :
  (∀ w, f w = f (off_sheet w)) → sheet_blind (gets f).
Proof. intros Hf. apply blind_prim. intros w. split; [simpl; by rewrite Hf|done]. Qed.

Lemma blind_bind {A B} (m : M A) (f : A → M B) :
  sheet_blind m → (∀ a, sheet_blind (f a)) → sheet_blind (m ≫= f).
Proof.
  intros Hm Hf w1 w2 H. unfold mbind, M_bind. destruct (Hm w1 w2 H) as [Hr Hw].
  destruct (m w1) as [[a|e] w1'], (m w2) as [[a2|e2] w2']; simpl in *; try done.
  - injection Hr as <-. by apply Hf.
  - injection Hr as <-. by split.
Qed.

Lemma blind_ret_bind {A B} (a : A) (f : A → M B) :
  sheet_blind (f a) → sheet_blind (mret a ≫= f).
Proof. intros Hf w1 w2 H. by apply Hf. Qed.

Lemma blind_for_each {A} (l : list A) (body : A → M unit) :
  (∀ x, sheet_blind (body x)) → sheet_blind (for_each l body).
Proof.
  intros Hb. induction l as [|x l IH]; simpl; [apply blind_ret|].
  apply blind_bind; [apply Hb|intros _; exact IH].
Qed.

Lemma blind_fold_each {A S} (l : list A) (s : S) (body : S → A → M S) :
  (∀ s x, sheet_blind (body s x)) → sheet_blind (fold_each l s body).
Proof.
  intros Hb. revert s. induction l as [|x l IH]; intros s; simpl; [apply blind_ret|].
  apply blind_bind; [apply Hb|intros s'; apply IH].
Qed.

Lemma blind_filter_each {A} (l : list A) (p : A → M bool) :
  (∀ x, sheet_blind (p x)) → sheet_blind (filter_each l p).
Proof.
  intros Hp. induction l as [|x l IH]; simpl; [apply blind_ret|].
  apply blind_bind; [apply Hp|intros b].
  apply blind_bind; [exact IH|intros rest; apply blind_ret].
Qed.

Lemma blind_now_tz : sheet_blind now_tz.
Proof. apply blind_prim. by intros w. Qed.

Lemma blind_insert_one (name : string) (data : Doc) : sheet_blind (insert_one name data).
Proof. apply blind_prim. by intros w. Qed.

Lemma blind_update_many (name : string) (flt upd : Doc) :
  sheet_blind (update_many name flt upd).
Proof. apply blind_prim. by intros w. Qed.

Lemma blind_send (to_number : Value) (message : string) :
  sheet_blind (send_whatsapp_message to_number message).
Proof. apply blind_prim. by intros w. Qed.

Lemma blind_append_to_sheet (row : list Value) : sheet_blind (_append_to_sheet row).
Proof.
  apply blind_prim. intros w. unfold _append_to_sheet, modify. simpl.
  by destruct (gsheet_up w).
Qed.

Lemma blind_append_log (row : list Value) : sheet_blind (_append_log row).
Proof.
  apply blind_prim. intros w. unfold _append_log, modify. simpl.
  by destruct (gsheet_up w).
Qed.

Ltac blind_step :=
  first
    [ apply blind_ret | apply blind_raise
    | apply blind_now_tz | apply blind_insert_one | apply blind_update_many
    | apply blind_send | apply blind_append_to_sheet | apply blind_append_log
    | match goal with
      | |- sheet_blind (gets _) => apply blind_gets; intros ?; reflexivity
      | |- sheet_blind ((if ?b then _ else _) ≫= _) => destruct b
      | |- sheet_blind (mret _ ≫= _) => apply blind_ret_bind; cbv beta
      | |- sheet_blind (_ ≫= _) => apply blind_bind; [|intros ?]
      | |- sheet_blind (for_each _ _) => apply blind_for_each; intros ?
      | |- sheet_blind (fold_each _ _ _) => apply blind_fold_each; intros ? ?
      | |- sheet_blind (filter_each _ _) => apply blind_filter_each; intros ?
      | |- sheet_blind (if ?b then _ else _) => destruct b
      | |- sheet_blind (match ?o with Some _ => _ | None => _ end) => destruct o
      | |- sheet_blind (match ?v with VNone => _ | VStr _ => _ | VTime _ => _ end) =>
          destruct v
      end
    | progress cbv zeta ].

Lemma blind_create_document (name : string) (data : Doc) :
  sheet_blind (create_document name data).
Proof. unfold create_document. repeat blind_step. Qed.

Lemma blind_update_document (name : string) (flt upd : Doc) :
  sheet_blind (update_document name flt upd).
Proof. unfold update_document. repeat blind_step. Qed.

Lemma blind_get_documents (name : string) (flt : Doc) (limit : N) :
  sheet_blind (get_documents name flt limit).
Proof. unfold get_documents, find. repeat blind_step. Qed.

Lemma blind_get_document (name : string) (flt : Doc) :
  sheet_blind (get_document name flt).
Proof. unfold get_document, find_one, set_str_id. repeat blind_step. Qed.

Lemma blind_log_status_change (lead_id from_status to_status note : Value) :
  sheet_blind (_log_status_change lead_id from_status to_status note).
Proof.
  unfold _log_status_change, LeadLog.
  repeat first [apply blind_create_document | blind_step].
Qed.

Lemma blind_save_and_sheet (lead_data : Doc) : sheet_blind (_save_and_sheet lead_data).
Proof.
  unfold _save_and_sheet, _sheet_row_from_lead, astimezone.
  repeat first [apply blind_create_document | apply blind_get_document | blind_step].
Qed.

Lemma blind_normalize_lead (data : Doc) : sheet_blind (normalize_lead data).
Proof. unfold normalize_lead, getenv, getenv_or. repeat blind_step. Qed.

Ltac blind_service_step :=
  first [ apply blind_normalize_lead | apply blind_save_and_sheet
        | apply blind_log_status_change | apply blind_update_document
        | apply blind_get_document | apply blind_get_documents
        | blind_step ].

(** X19: no endpoint and no job depends on the spreadsheet: from two worlds
    that differ only in the spreadsheet (whether it can be reached, and its
    rows) each of them ends the same way, with the same result, and leaves
    the same store, clock, environment and outbox. *)
Theorem spreadsheet_never_read :
  (∀ p, sheet_blind (ingest_webhook p))
  ∧ (∀ p, sheet_blind (ingest_facebook p))
  ∧ (∀ p, sheet_blind (ingest_manual p))
  ∧ (∀ p, sheet_blind (create_lead p))
  ∧ (∀ msg, sheet_blind (ingest_whatsapp msg))
  ∧ (∀ p, sheet_blind (update_status p))
  ∧ sheet_blind follow_up_checks
  ∧ sheet_blind daily_summary_job.
Proof.
  split; [|split; [|split; [|split; [|split; [|split; [|split]]]]]].
  - intros p. unfold ingest_webhook. repeat blind_service_step.
  - intros p. unfold ingest_facebook. repeat blind_service_step.
  - intros p. unfold ingest_manual. repeat blind_service_step.
  - intros p. unfold create_lead. repeat blind_service_step.
  - intros msg. unfold ingest_whatsapp. repeat blind_service_step.
  - intros p. unfold update_status. repeat blind_service_step.
  - unfold follow_up_checks, remind_15, follow_up_24, time_le.
    repeat blind_service_step.
  - unfold daily_summary_job, count_lead, title_or_unknown, is_overdue, time_le.
    repeat blind_service_step.
Qed.

(** * Typed leads *)

Lemma typed_lead_ext (d d' : Doc) :
  d' !! "timestamp" = d !! "timestamp" → d' !! "area" = d !! "area" →
  d' !! "job_category" = d !! "job_category" →
  typed_lead d → typed_lead d'.
Proof.
  unfold typed_lead, titleable, time_of, doc_get. by intros -> -> ->.
Qed.

Lemma is_Lead_typed (d : Doc) : is_Lead d = true → typed_lead d.
Proof.
  unfold is_Lead. rewrite !andb_true_iff.
  intros (((((((((_ & _) & Ha) & Hj) & _) & _) & Ht) & _) & _) & _).
  split; [|by split]. unfold time_of. by destruct (doc_get d "timestamp").
Qed.

Lemma leads_typed_insert_lead (data : Doc) (w : World) :
  is_Lead data = true → leads_typed w → leads_typed (insert_one "lead" data w).2.
Proof.
  intros Hv Hw. unfold leads_typed.
  destruct (collection_inserted "lead" "lead" data w) as (d & _ & Hk & ->).
  rewrite decide_True by done. apply Forall_app. split; [exact Hw|].
  apply Forall_singleton. apply (typed_lead_ext data); try (by apply Hk).
  by apply is_Lead_typed.
Qed.

Lemma leads_typed_insert_log (data : Doc) (w : World) :
  leads_typed w → leads_typed (insert_one "lead_log" data w).2.
Proof.
  intros Hw. unfold leads_typed.
  destruct (collection_inserted "lead_log" "lead" data w) as (d & _ & _ & ->).
  by rewrite decide_False.
Qed.

Lemma leads_typed_update (flt upd : Doc) (w : World) :
  patch_of_mutable upd → leads_typed w → leads_typed (update_many "lead" flt upd w).2.
Proof.
  intros Hu Hw. unfold leads_typed, update_many. simpl.
  rewrite collection_alter, decide_True by done. apply Forall_fmap.
  eapply Forall_impl; [exact Hw|]. intros d Hd. simpl.
  assert (Hk : ∀ k, k ∉ mutable_fields → apply_set flt upd d !! k = d !! k).
  { intros k Hk. unfold apply_set. case_decide; [|done].
    rewrite lookup_union_r; [done|]. by apply Hu. }
  apply (typed_lead_ext d); try done; apply Hk; unfold mutable_fields; by_compute.
Qed.

(** X20: that every lead has a [datetime] as time stamp and an area and a job
    category that are strings or absent is an invariant of all endpoints and
    jobs, returning or raising. *)
Theorem typed_leads_invariant (w : World) :
  leads_typed w →
  (∀ p, leads_typed (ingest_webhook p w).2)
  ∧ (∀ p, leads_typed (ingest_facebook p w).2)
  ∧ (∀ p, leads_typed (ingest_manual p w).2)
  ∧ (∀ p, leads_typed (create_lead p w).2)
  ∧ (∀ msg, leads_typed (ingest_whatsapp msg w).2)
  ∧ (∀ p, leads_typed (update_status p w).2)
  ∧ leads_typed (follow_up_checks w).2
  ∧ leads_typed (daily_summary_job w).2.
Proof.
  intros Hw.
  pose proof (preserved_preorder leads_typed) as HR.
  assert (H1 : ∀ w, preserved leads_typed w (set_ticks (S (ticks w)) w)) by (by intros ? ?).
  assert (H2 : ∀ w m, preserved leads_typed w (set_outbox (outbox w ++ [m]) w))
    by (by intros ? ? ?).
  assert (H3 : ∀ w r, preserved leads_typed w (set_sheet1 (sheet1 w ++ [r]) w))
    by (by intros ? ? ?).
  assert (H4 : ∀ w r, preserved leads_typed w (set_log_sheet (log_sheet w ++ [r]) w))
    by (by intros ? ? ?).
  assert (H5 : ∀ w data, data !! "_id" = None → is_Lead data = true →
                 preserved leads_typed w (insert_one "lead" data w).2)
    by (intros ? ? ? ? ?; by apply leads_typed_insert_lead).
  assert (H6 : ∀ w data, data !! "_id" = None →
                 preserved leads_typed w (insert_one "lead_log" data w).2)
    by (intros ? ? ? ?; by apply leads_typed_insert_log).
  assert (H7 : ∀ w flt upd, patch_of_mutable upd →
                 preserved leads_typed w (update_many "lead" flt upd w).2)
    by (intros ? ? ? ? ?; by apply leads_typed_update).
  split; [|split; [|split; [|split; [|split; [|split; [|split]]]]]].
  - intros p. by apply (keeps_ingest_webhook (preserved leads_typed)).
  - intros p. by apply (keeps_ingest_facebook (preserved leads_typed)).
  - intros p. by apply (keeps_ingest_manual (preserved leads_typed)).
  - intros p. by apply (keeps_create_lead_form (preserved leads_typed)).
  - intros msg. by apply (keeps_ingest_whatsapp (preserved leads_typed)).
  - intros p. by apply (keeps_update_status (preserved leads_typed)).
  - by apply (keeps_follow_up_checks (preserved leads_typed)).
  - by apply (keeps_daily_summary_job (preserved leads_typed)).
Qed.

Lemma leads_typed_world3 : leads_typed world3.
Proof. unfold leads_typed. repeat constructor; by eexists. Qed.

Lemma typed_leads_invariant_witness :
  (∀ p, leads_typed (ingest_webhook p world3).2)
  ∧ (∀ p, leads_typed (ingest_facebook p world3).2)
  ∧ (∀ p, leads_typed (ingest_manual p world3).2)
  ∧ (∀ p, leads_typed (create_lead p world3).2)
  ∧ (∀ msg, leads_typed (ingest_whatsapp msg world3).2)
  ∧ (∀ p, leads_typed (update_status p world3).2)
  ∧ leads_typed (follow_up_checks world3).2
  ∧ leads_typed (daily_summary_job world3).2.
Proof. apply (typed_leads_invariant world3). exact leads_typed_world3. Defined.






(** * Further properties of the scans, the log writer and the lookups *)

(** ** A reply takes the leads of the handler out of the scans *)




(** ** A lead without time stamp *)




(** ** What a scan sends *)





(** ** The log writer *)


(** ** Lookup of one document *)

Lemma head_take_pos {A} (n : nat) (l : list A) : (0 < n)%nat → head (take n l) = head l.
Proof. intros Hn. destruct n; [lia|]. by destruct l. Qed.

(** X26: when every document of the collection carries an identifier, the
    lookup of one document returns the first result of the lookup of many
    with the same filter, for every limit, and [None] when there is none. *)
Theorem get_document_is_first (name : string) (flt : Doc) (limit : N) (w : World) :
  (∀ d, d ∈ collection name w → is_Some (d !! "_id")) →
  ∃ docs,
    get_documents name flt limit w = (Ok docs, w)
    ∧ get_document name flt w = (Ok (head docs), w).
Proof.
  intros Hid. unfold get_documents, get_document, find, find_one. run.
  eexists. split; [reflexivity|].
  assert (Hh : head (str_id <$> (if decide (limit = 0%N)
                                 then filter (Matches flt) (collection name w)
                                 else take (N.to_nat limit)
                                        (filter (Matches flt) (collection name w))))
               = str_id <$> head (filter (Matches flt) (collection name w))).
  { case_decide; [by destruct (filter _ _)|].
    rewrite <- (head_take_pos (N.to_nat limit) (filter _ _)) by lia.
    by destruct (take _ _). }
  rewrite Hh. clear Hh.
  destruct (head (filter (Matches flt) (collection name w))) as [d|] eqn:Hd; [|done].
  apply head_Some_elem_of, list_elem_of_filter in Hd as [_ Hd].
  destruct (Hid d Hd) as [v Hv].
  assert (Hb : ∀ dec, @bool_decide (d = ∅) dec = false).
  { intros. apply bool_decide_false. intros ->. by rewrite lookup_empty in Hv. }
  unfold doc_truthy. rewrite Hb. simpl.
  unfold set_str_id, str_id, doc_get. by rewrite Hv.
Qed.

Lemma get_document_is_first_witness :
  ∃ docs,
    get_documents "lead" {["status" := VStr "Won"]} 5%N world3 = (Ok docs, world3)
    ∧ get_document "lead" {["status" := VStr "Won"]} world3 = (Ok (head docs), world3).
Proof.
  apply (get_document_is_first "lead" {["status" := VStr "Won"]} 5%N world3).
  intros d Hd. destruct (ids_issued_world3 "lead" d Hd) as (n & _ & Hn). by eexists.
Defined.
